(** * FFTKDE: binning + convolution kernel density estimation

    A shallow embedding of [KDEpy/FFTKDE.py] (class [FFTKDE]: [__init__],
    [fit], [evaluate]) and the properties of its evaluation pipeline.

    Numbers.  numpy's float64 values are modelled by exact rationals
    extended with the two infinities and NaN ([float64] below): the special
    values follow IEEE-754 as numpy uses them (division by zero yields an
    infinity or NaN, comparisons with NaN are false, [np.minimum] propagates
    NaN); rounding and overflow of finite values are not modelled.

    Effects.  [evaluate] reads and assigns attributes of the instance and
    calls collaborators (bandwidth rule, binning, kernel, convolution).  The
    embedding threads the instance and a log of collaborator calls through
    an exception monad; an assignment made before an exception is raised
    stays visible, as in Python. *)

From Stdlib Require Import String ZArith QArith Qround List Bool Lia Lqa.
Import ListNotations.
Open Scope Q_scope.

(** ** Idealised float64 *)

Inductive float64 : Type :=
| Fin (q : Q)
| PInf
| NInf
| NaN.

Definition of_Z (z : Z) : float64 := Fin (inject_Z z).

(** An infinity multiplied by (or a value divided by +0 giving) a signed
    result: the sign of [q] decides, and a zero [q] gives NaN. *)
Definition signed_inf (positive : bool) (q : Q) : float64 :=
  match q ?= 0 with
  | Eq => NaN
  | Gt => if positive then PInf else NInf
  | Lt => if positive then NInf else PInf
  end.

Definition fneg (a : float64) : float64 :=
  match a with
  | Fin x => Fin (Qred (- x))
  | PInf => NInf
  | NInf => PInf
  | NaN => NaN
  end.

Definition fadd (a b : float64) : float64 :=
  match a, b with
  | NaN, _ | _, NaN => NaN
  | Fin x, Fin y => Fin (Qred (x + y))
  | PInf, NInf | NInf, PInf => NaN
  | PInf, _ | _, PInf => PInf
  | NInf, _ | _, NInf => NInf
  end.

Definition fsub (a b : float64) : float64 := fadd a (fneg b).

Definition fmul (a b : float64) : float64 :=
  match a, b with
  | NaN, _ | _, NaN => NaN
  | Fin x, Fin y => Fin (Qred (x * y))
  | Fin x, PInf | PInf, Fin x => signed_inf true x
  | Fin x, NInf | NInf, Fin x => signed_inf false x
  | PInf, PInf | NInf, NInf => PInf
  | PInf, NInf | NInf, PInf => NInf
  end.

(** Division as numpy performs it on arrays: no exception, a zero divisor
    (always +0 here: it comes from an integer array or from a difference of
    grid values) gives an infinity or NaN. *)
Definition fdiv (a b : float64) : float64 :=
  match a, b with
  | NaN, _ | _, NaN => NaN
  | Fin x, Fin y =>
      match y ?= 0 with
      | Eq => signed_inf true x
      | _ => Fin (Qred (x / y))
      end
  | Fin _, PInf | Fin _, NInf => Fin 0
  | PInf, Fin y => if Qle_bool 0 y then PInf else NInf
  | NInf, Fin y => if Qle_bool 0 y then NInf else PInf
  | _, _ => NaN
  end.

(** [np.floor] *)
Definition ffloor (a : float64) : float64 :=
  match a with
  | Fin x => Fin (inject_Z (Qfloor x))
  | _ => a
  end.

(** [a < b]; false as soon as one side is NaN. *)
Definition flt (a b : float64) : bool :=
  match a, b with
  | NaN, _ | _, NaN => false
  | Fin x, Fin y => negb (Qle_bool y x)
  | NInf, NInf => false
  | NInf, _ => true
  | _, PInf => match a with PInf => false | _ => true end
  | _, _ => false
  end.

(** [np.minimum]: element-wise minimum, NaN if either side is NaN. *)
Definition fminimum (a b : float64) : float64 :=
  match a, b with
  | NaN, _ | _, NaN => NaN
  | _, _ => if flt b a then b else a
  end.

(** ** Python values, exceptions *)

Definition point := list Q.
Definition dataset := list point.

(** The values an attribute such as [bw] or [norm] may hold.  [PyNum]
    stands for the real numbers of Python ([int], [bool], [float] and numpy
    scalars), which [numbers.Number] accepts and [>] orders; [PyComplex] is a
    [numbers.Number] too, but has no order. *)
Inductive pyval : Type :=
| PyNum (x : float64)
| PyComplex (re im : Q)
| PyStr (s : string)
| PyNone
| PyCallable (rule : dataset -> float64).

(** Exceptions.  The messages are abridged (numpy and Python put the
    offending value in some of them); [InvalidGridError] is the error the
    specification gives for a refused grid, and [BaseError] stands for what
    the constructor of the base class raises. *)
Inductive exn : Type :=
| ValueError (msg : string)
| AssertionError
| TypeError (msg : string)
| AttributeError (attr : string)
| OverflowError
| InvalidGridError
| BaseError (msg : string).

Inductive result (A : Type) : Type :=
| Ok (a : A)
| Raise (e : exn).
Arguments Ok {A} a.
Arguments Raise {A} e.

Definition is_ok {A} (r : result A) : bool :=
  match r with Ok _ => true | Raise _ => false end.

(** [callable(v)] *)
Definition callable (v : pyval) : bool :=
  match v with PyCallable _ => true | _ => false end.

(** [isinstance(v, numbers.Number)] *)
Definition is_Number (v : pyval) : bool :=
  match v with PyNum _ | PyComplex _ _ => true | _ => false end.

Definition type_msg : string := "'>' not supported between instances".

(** [v > 0] for a [numbers.Number]: complex numbers are not ordered. *)
Definition gt_zero (v : pyval) : result bool :=
  match v with
  | PyNum x => Ok (flt (Fin 0) x)
  | _ => Raise (TypeError type_msg)
  end.

(** [isinstance(v, numbers.Number) and v > 0], with Python's short-circuit. *)
Definition is_positive_Number (v : pyval) : result bool :=
  if is_Number v then gt_zero v else Ok false.

(** [int(x)] on a float. *)
Definition py_int (x : float64) : result Z :=
  match x with
  | Fin q => Ok (Z.quot (Qnum q) (Zpos (Qden q)))
  | NaN => Raise (ValueError "cannot convert float NaN to integer")
  | _ => Raise OverflowError
  end.

(** ** numpy and scipy operations used by [evaluate] *)

(** The evaluation grid [self.grid_points]: an (n, d) array, one grid node
    per row. *)
Record ndgrid : Type := {
  g_dim : nat;
  g_rows : list (list Q)
}.

(** [grid[:, i]] *)
Definition column (g : ndgrid) (i : nat) : list Q :=
  map (fun row => nth i row 0) (g_rows g).

Fixpoint insert_unique (x : Q) (l : list Q) : list Q :=
  match l with
  | [] => [x]
  | y :: r =>
      match x ?= y with
      | Lt => x :: l
      | Eq => l
      | Gt => y :: insert_unique x r
      end
  end.

(** [np.unique]: the sorted distinct values. *)
Definition np_unique (xs : list Q) : list Q := fold_right insert_unique [] xs.

Definition qmin (a b : Q) : Q := if Qle_bool a b then a else b.
Definition qmax (a b : Q) : Q := if Qle_bool a b then b else a.

Definition zero_size_msg : string :=
  "zero-size array to reduction operation which has no identity".

(** [np.min] and [np.max] of one column; an empty column has no minimum. *)
Definition np_min (xs : list Q) : result Q :=
  match xs with
  | [] => Raise (ValueError zero_size_msg)
  | x :: r => Ok (fold_left qmin r x)
  end.

Definition np_max (xs : list Q) : result Q :=
  match xs with
  | [] => Raise (ValueError zero_size_msg)
  | x :: r => Ok (fold_left qmax r x)
  end.

(** Running a fallible function over a list, left to right, stopping at the
    first exception. *)
Fixpoint map_result {A B} (f : A -> result B) (l : list A) : result (list B) :=
  match l with
  | [] => Ok []
  | a :: r =>
      match f a with
      | Raise e => Raise e
      | Ok b =>
          match map_result f r with
          | Raise e => Raise e
          | Ok bs => Ok (b :: bs)
          end
      end
  end.

Definition is_zero (x : float64) : bool :=
  match x with Fin q => Qeq_bool q 0 | _ => false end.

Fixpoint set_last {A} (l : list A) (v : A) : list A :=
  match l with
  | [] => []
  | [_] => [v]
  | a :: r => a :: set_last r v
  end.

(** The points of [np.linspace] for a non-negative number of samples: the
    ramp [0, 1, ...] scaled by the step and shifted to [start], with the last
    point set to [stop]; with one sample the step is undefined and the ramp
    is multiplied by [stop - start]. *)
Definition linspace_points (start stop : float64) (num : Z) : list float64 :=
  let div := (num - 1)%Z in
  let y := map (fun k => of_Z (Z.of_nat k)) (seq 0 (Z.to_nat num)) in
  let delta := fsub stop start in
  let y :=
    if (0 <? div)%Z then
      let step := fdiv delta (of_Z div) in
      if is_zero step
      then map (fun v => fmul (fdiv v (of_Z div)) delta) y
      else map (fun v => fmul v step) y
    else map (fun v => fmul v delta) y in
  let y := map (fun v => fadd v start) y in
  if (1 <? num)%Z then set_last y stop else y.

(** [np.linspace(start, stop, num)] with the default [endpoint=True]. *)
Definition np_linspace (start stop : float64) (num : Z) : result (list float64) :=
  if (num <? 0)%Z then Raise (ValueError "Number of samples must be non-negative.")
  else Ok (linspace_points start stop num).

(** An n-dimensional array in C order (last axis fastest). *)
Record ndarray : Type := {
  nd_shape : list nat;
  nd_flat : list float64
}.

Definition prod_nat (s : list nat) : nat := fold_right Nat.mul 1%nat s.
Definition prod_Z (s : list Z) : Z := fold_right Z.mul 1%Z s.

(** [a.reshape] applied to the unpacked list [dims].  With no dimension at
    all the call has no argument, which numpy refuses.  The wildcard
    dimension -1 is not modelled: the dimensions [evaluate] passes were
    accepted by [np.linspace] as sample counts before, or are counts of
    unique values. *)
Definition np_reshape (flat : list float64) (dims : list Z) : result ndarray :=
  match dims with
  | [] => Raise (TypeError "reshape() takes exactly 1 argument (0 given)")
  | _ =>
      if existsb (fun d => (d <? 0)%Z) dims
      then Raise (ValueError "negative dimensions not allowed")
      else if (prod_Z dims =? Z.of_nat (length flat))%Z
      then Ok {| nd_shape := map Z.to_nat dims; nd_flat := flat |}
      else Raise (ValueError "cannot reshape array")
  end.

(** All multi-indices of a shape, in C order. *)
Fixpoint all_indices (s : list nat) : list (list Z) :=
  match s with
  | [] => [[]]
  | n :: r =>
      flat_map (fun i => map (cons (Z.of_nat i)) (all_indices r)) (seq 0 n)
  end.

(** Flat position of a multi-index; [None] outside the array. *)
Fixpoint ravel (s : list nat) (idx : list Z) : option nat :=
  match s, idx with
  | [], [] => Some 0%nat
  | n :: s', i :: idx' =>
      if ((0 <=? i) && (i <? Z.of_nat n))%Z
      then option_map (fun k => (Z.to_nat i * prod_nat s' + k)%nat) (ravel s' idx')
      else None
  | _, _ => None
  end.

Definition nd_get (a : ndarray) (idx : list Z) : option float64 :=
  match ravel (nd_shape a) idx with
  | Some k => nth_error (nd_flat a) k
  | None => None
  end.

Definition fsum (l : list float64) : float64 := fold_left fadd l (Fin 0).

(** Centre of the second operand: the 'same' output is the central part of
    the full convolution, which starts [(m - 1) // 2] cells in. *)
Definition centre (s : list nat) : list Z :=
  map (fun m => ((Z.of_nat m - 1) / 2)%Z) s.

Fixpoint zip_with {A B C} (f : A -> B -> C) (l : list A) (l' : list B) : list C :=
  match l, l' with
  | a :: r, b :: r' => f a b :: zip_with f r r'
  | _, _ => []
  end.

(** Index into the first operand that meets index [J] of the second one
    when the output index is [I]. *)
Definition shifted (I c J : list Z) : list Z :=
  zip_with Z.sub (zip_with Z.add I c) J.

(** One output cell of the same-size convolution: the sum, over the cells
    [J] of [in2], of [in1[I + c - J] * in2[J]]; cells of [in1] outside the
    array contribute nothing. *)
Definition conv_at (in1 in2 : ndarray) (I : list Z) : float64 :=
  fsum (flat_map
          (fun J =>
             match nd_get in1 (shifted I (centre (nd_shape in2)) J), nd_get in2 J with
             | Some a, Some b => [fmul a b]
             | _, _ => []
             end)
          (all_indices (nd_shape in2))).

(** [scipy.signal.convolve(in1, in2, mode='same')]: the output has the shape
    of [in1], centred with respect to the full convolution. *)
Definition scipy_convolve_same (in1 in2 : ndarray) : result ndarray :=
  if Nat.eqb (length (nd_shape in1)) (length (nd_shape in2))
  then Ok {| nd_shape := nd_shape in1;
             nd_flat := map (conv_at in1 in2) (all_indices (nd_shape in1)) |}
  else Raise (ValueError "in1 and in2 should have the same dimensionality").

(** Modelled from the spec: [KDEpy.utils.cartesian] is not among the
    sources; section 6 gives it as the all-combinations matrix of the
    per-axis sequences, last axis fastest-varying. *)
Fixpoint cartesian {A} (arrays : list (list A)) : list (list A) :=
  match arrays with
  | [] => [[]]
  | a :: r => flat_map (fun x => map (cons x) (cartesian r)) a
  end.

(** ** The instance and its collaborators *)

(** The kernel object held in [self.kernel]: the attributes and the call
    that [evaluate] uses. *)
Record Kernel : Type := {
  finite_support : bool;
  support : float64;
  practical_support : float64 -> float64;
  kernel_call : list (list float64) -> pyval -> pyval -> list float64
}.

(** The attributes of an [FFTKDE] instance.  [data], [weights] and
    [grid_points] are absent until [fit], respectively [evaluate], assigns
    them. *)
Record FFTKDE : Type := {
  kernel : Kernel;
  bw : pyval;
  norm : pyval;
  data : option dataset;
  weights : option (list Q);
  grid_points : option ndgrid;
  user_supplied_grid : bool
}.

Definition set_bw (s : FFTKDE) (v : pyval) : FFTKDE :=
  {| kernel := kernel s; bw := v; norm := norm s; data := data s;
     weights := weights s; grid_points := grid_points s;
     user_supplied_grid := user_supplied_grid s |}.

Definition set_grid (s : FFTKDE) (g : ndgrid) (supplied : bool) : FFTKDE :=
  {| kernel := kernel s; bw := bw s; norm := norm s; data := data s;
     weights := weights s; grid_points := Some g;
     user_supplied_grid := supplied |}.

Definition set_data (s : FFTKDE) (d : dataset) (w : option (list Q)) : FFTKDE :=
  {| kernel := kernel s; bw := bw s; norm := norm s; data := Some d;
     weights := w; grid_points := grid_points s;
     user_supplied_grid := user_supplied_grid s |}.

(** The argument of [evaluate]: nothing, a number of grid points, a number
    per dimension, or an explicit grid. *)
Inductive grid_request : Type :=
| GridNone
| GridInt (n : Z)
| GridTuple (ns : list Z)
| GridExplicit (g : ndgrid).

(** The parts of the package that [FFTKDE.py] imports and that are not among
    the sources are parameters of the embedding: the constructor of the base
    class (which looks the kernel up by name and checks or looks up the
    bandwidth), the builder of a grid around the data, the spreading of
    weighted points onto the grid nodes, and the tolerance of the grid
    check. *)
Record Collab : Type := {
  base_init : string -> pyval -> result (Kernel * pyval);
  autogrid : dataset -> grid_request -> ndgrid;
  bin_mass : dataset -> ndgrid -> list Q -> list float64;
  grid_tol : Q
}.

(** Calls to collaborators, in the order [evaluate] makes them. *)
Inductive event : Type :=
| CallBwRule (d : dataset)
| CallBinning (d : dataset) (g : ndgrid) (w : option (list Q))
| CallKernel (pts : list (list float64)) (bw_arg norm_arg : pyval)
| CallConvolve (in1 in2 : ndarray).

Definition is_rule_call (e : event) : bool :=
  match e with CallBwRule _ => true | _ => false end.

(** ** The monad: instance state, call log, exceptions *)

Record world : Type := {
  self : FFTKDE;
  calls : list event
}.

Definition M (A : Type) : Type := world -> result A * world.

Definition ret {A} (a : A) : M A := fun w => (Ok a, w).

Definition bind {A B} (c : M A) (k : A -> M B) : M B :=
  fun w =>
    match c w with
    | (Ok a, w') => k a w'
    | (Raise e, w') => (Raise e, w')
    end.

Definition raise {A} (e : exn) : M A := fun w => (Raise e, w).

Definition lift {A} (r : result A) : M A := fun w => (r, w).

Definition get_self : M FFTKDE := fun w => (Ok (self w), w).

Definition put_self (s : FFTKDE) : M unit :=
  fun w => (Ok tt, {| self := s; calls := calls w |}).

Definition emit (e : event) : M unit :=
  fun w => (Ok tt, {| self := self w; calls := calls w ++ [e] |}).

Definition py_assert (b : bool) : M unit :=
  if b then ret tt else raise AssertionError.

Declare Scope py_scope.
Delimit Scope py_scope with py.
Notation "x <- c ;; k" := (bind c (fun x => k))
  (at level 61, c at next level, right associativity) : py_scope.
Notation "c ;;; k" := (bind c (fun _ => k))
  (at level 61, right associativity) : py_scope.
Open Scope py_scope.

(** Reading an attribute that was never assigned raises [AttributeError]. *)
Definition attr {A} (name : string) (f : FFTKDE -> option A) : M A :=
  s <- get_self ;;
  match f s with
  | Some a => ret a
  | None => raise (AttributeError name)
  end.

(** A number used in arithmetic. *)
Definition as_float (v : pyval) : result float64 :=
  match v with
  | PyNum x => Ok x
  | _ => Raise (TypeError "unsupported operand type(s)")
  end.

(** ** The base class *)

Definition nodes_eqb (r r' : list Q) : bool :=
  Nat.eqb (List.length r) (List.length r') &&
  forallb (fun p => Qeq_bool (fst p) (snd p)) (combine r r').

Definition rows_eqb (rs rs' : list (list Q)) : bool :=
  Nat.eqb (List.length rs) (List.length rs') &&
  forallb (fun p => nodes_eqb (fst p) (snd p)) (combine rs rs').

Definition qabs_le (x tol : Q) : bool := Qle_bool x tol && Qle_bool (- x) tol.

(** Successive differences of an axis. *)
Fixpoint diffs (l : list Q) : list Q :=
  match l with
  | a :: (b :: _) as r => (b - a) :: diffs r
  | _ => []
  end.

Definition equidistant (tol : Q) (axis : list Q) : bool :=
  match diffs axis with
  | [] => true
  | d0 :: ds => forallb (fun d => qabs_le (d - d0) tol) ds
  end.

Definition grid_axes (g : ndgrid) : list (list Q) :=
  map (fun i => np_unique (column g i)) (seq 0 (g_dim g)).

(** Modelled from the spec: the check of an explicit grid belongs to
    [BaseKDE.evaluate], which is not among the sources.  Section 4.1 has it
    verify the cartesian-product structure and the per-axis equidistance
    within a floating tolerance: every row has one coordinate per dimension,
    the rows are the cartesian product of the sorted distinct values of the
    columns (in the order of the product helper, last axis fastest), and
    the successive differences of each axis agree up to the tolerance. *)
Definition valid_grid (tol : Q) (g : ndgrid) : bool :=
  forallb (fun row => Nat.eqb (List.length row) (g_dim g)) (g_rows g) &&
  rows_eqb (g_rows g) (cartesian (grid_axes g)) &&
  forallb (equidistant tol) (grid_axes g).

(** Modelled from the spec: [BaseKDE.evaluate] is not among the sources.
    The comment at its call site says that it sets [self.grid_points] and
    verifies it; section 4.1 gives the two cases: a grid is built around the
    fitted data when none is supplied, and an explicit grid is checked and
    refused with InvalidGridError.  Whether the grid was supplied is kept
    for the return logic. *)
Definition BaseKDE_evaluate (E : Collab) (req : grid_request) : M unit :=
  match req with
  | GridExplicit g =>
      if valid_grid (grid_tol E) g
      then s <- get_self ;; put_self (set_grid s g true)
      else raise InvalidGridError
  | _ =>
      d <- attr "data" data ;;
      s <- get_self ;;
      put_self (set_grid s (autogrid E d req) false)
  end.

(** Modelled from the spec: [BaseKDE.fit] is not among the sources.
    Section 6 has [fit] store data and weights only, with no computation; the
    docstring of [FFTKDE.fit] asks for one weight per data point. *)
Definition BaseKDE_fit (s : FFTKDE) (d : dataset) (w : option (list Q)) : result FFTKDE :=
  match w with
  | Some ws =>
      if Nat.eqb (List.length ws) (List.length d)
      then Ok (set_data s d w)
      else Raise (ValueError "weights must have the same shape as the data")
  | None => Ok (set_data s d w)
  end.

(** Modelled from the spec: [KDEpy.binning.linear_binning] is not among the
    sources.  Section 3 gives the sample set N weights, uniform by default,
    and section 8 has N unit weights behave as no weights: absent weights
    stand for one unit weight per point.  How the mass of a point is spread
    onto the grid nodes is the parameter [bin_mass]. *)
Definition linear_binning (E : Collab) (d : dataset) (g : ndgrid)
    (w : option (list Q)) : list float64 :=
  bin_mass E d g
    (match w with
     | Some ws => ws
     | None => repeat 1 (List.length d)
     end).

(** What [evaluate] returns: the density alone when the grid was supplied,
    the grid and the density otherwise. *)
Inductive retval : Type :=
| RetY (y : list float64)
| RetXY (x : ndgrid) (y : list float64).

Definition density (r : retval) : list float64 :=
  match r with RetY y => y | RetXY _ y => y end.

(** Modelled from the spec: [BaseKDE._evalate_return_logic] is not among
    the sources; the docstring of [evaluate] and section 6 give its result. *)
Definition _evalate_return_logic (evaluated : list float64) (g : ndgrid) : M retval :=
  s <- get_self ;;
  ret (if user_supplied_grid s then RetY evaluated else RetXY g evaluated).

(** ** Class [FFTKDE] *)

(** [FFTKDE.__init__(kernel, bw, norm)]: the norm is stored, the base class
    sets [kernel] and [bw], and then the norm is asserted to be a positive
    number.  An exception leaves no instance. *)
Definition __init__ (E : Collab) (kernel_arg : string) (bw_arg norm_arg : pyval)
  : result FFTKDE :=
  match base_init E kernel_arg bw_arg with
  | Raise e => Raise e
  | Ok (k, b) =>
      let s := {| kernel := k; bw := b; norm := norm_arg; data := None;
                  weights := None; grid_points := None;
                  user_supplied_grid := false |} in
      match is_positive_Number (norm s) with
      | Raise e => Raise e
      | Ok true => Ok s
      | Ok false => Raise AssertionError
      end
  end.

(** [FFTKDE.fit(data, weights)]: delegates to the base class and returns the
    instance. *)
Definition fit (s : FFTKDE) (d : dataset) (w : option (list Q)) : result FFTKDE :=
  BaseKDE_fit s d w.

Definition bw_msg : string := "The bw must be a callable or a number.".

Definition bw_error : exn := ValueError bw_msg.

(** The local variables of [evaluate] once the convolution is done. *)
Record locals : Type := {
  l_bw : pyval;
  l_data : list float64;
  l_num_grid_points : list nat;
  l_num_intervals : list Z;
  l_dx : list float64;
  l_real_bw : float64;
  l_L : list float64;
  l_grids : list (list float64);
  l_kernel_grid : list (list float64);
  l_kernel_weights : ndarray;
  l_data_nd : ndarray;
  l_convolved : ndarray;
  l_evaluated : list float64
}.

(** Lines 131-137: the bandwidth is the result of the rule, or the positive
    number itself; it replaces the attribute. *)
Definition resolve_bw : M pyval :=
  s <- get_self ;;
  b <- match bw s with
       | PyCallable rule =>
           d <- attr "data" data ;;
           emit (CallBwRule d) ;;;
           ret (PyNum (rule d))
       | v =>
           ok <- lift (is_positive_Number v) ;;
           if ok then ret v else raise (ValueError bw_msg)
       end ;;
  s <- get_self ;;
  put_self (set_bw s b) ;;;
  ret b.

(** Lines 154-157: the real extent of the kernel. *)
Definition real_extent (s : FFTKDE) : result float64 :=
  match as_float (bw s) with
  | Raise e => Raise e
  | Ok b =>
      if finite_support (kernel s)
      then Ok (fmul (support (kernel s)) b)
      else Ok (practical_support (kernel s) b)
  end.

(** Line 160, one axis. *)
Definition footprint (real_bw dx : float64) (num_intervals : Z) : float64 :=
  fminimum (ffloor (fdiv real_bw dx)) (of_Z num_intervals).

(** Lines 144-151: per axis, the number of distinct grid values, the
    extreme values, the number of intervals and the spacing. *)
Record spacing : Type := {
  sp_num_grid_points : list nat;
  sp_min_grid : list Q;
  sp_max_grid : list Q;
  sp_num_intervals : list Z;
  sp_dx : list float64
}.

Definition grid_spacing (g : ndgrid) : result spacing :=
  let g_shape := g_dim g in
  let num_grid_points :=
    map (fun i => List.length (np_unique (column g i))) (seq 0 g_shape) in
  match map_result (fun i => np_min (column g i)) (seq 0 g_shape) with
  | Raise e => Raise e
  | Ok min_grid =>
      match map_result (fun i => np_max (column g i)) (seq 0 g_shape) with
      | Raise e => Raise e
      | Ok max_grid =>
          let num_intervals := map (fun m => (Z.of_nat m - 1)%Z) num_grid_points in
          let dx :=
            zip_with fdiv
              (zip_with (fun hi lo => fsub (Fin hi) (Fin lo)) max_grid min_grid)
              (map of_Z num_intervals) in
          Ok {| sp_num_grid_points := num_grid_points; sp_min_grid := min_grid;
                sp_max_grid := max_grid; sp_num_intervals := num_intervals;
                sp_dx := dx |}
      end
  end.

(** [int(k * 2 + 1)] *)
Definition footprint_size (k : float64) : result Z :=
  py_int (fadd (fmul k (Fin 2)) (Fin 1)).

(** Line 164, one axis: [np.linspace(-dx * L, dx * L, int(L * 2 + 1))]. *)
Definition footprint_grid (p : float64 * float64) : result (list float64) :=
  let (dx, L) := p in
  match footprint_size L with
  | Raise e => Raise e
  | Ok num => np_linspace (fmul (fneg dx) L) (fmul dx L) num
  end.

(** Line 161: [(dx * L < real_bw).all()] *)
Definition footprint_ok (real_bw : float64) (dx L : list float64) : bool :=
  forallb (fun p => flt (fmul (fst p) (snd p)) real_bw) (combine dx L).

(** Lines 139-174: the three steps of [evaluate] once the grid is set and
    the bandwidth [b] resolved. *)
Definition evaluate_rest (E : Collab) (b : pyval) : M locals :=
  (* Step 1 - Obtaining the grid counts *)
  d <- attr "data" data ;;
  g <- attr "grid_points" grid_points ;;
  s <- get_self ;;
  emit (CallBinning d g (weights s)) ;;;
  let binned := linear_binning E d g (weights s) in
  (* Step 2 - Computing kernel weights *)
  sp <- lift (grid_spacing g) ;;
  let num_grid_points := sp_num_grid_points sp in
  let num_intervals := sp_num_intervals sp in
  let dx := sp_dx sp in
  (* Find the real bandwidth, the support times the desired bw factor *)
  real_bw <- lift (real_extent s) ;;
  (* Compute L, the number of dx'es to move out from 0 in kernel *)
  let L := zip_with (footprint real_bw) dx num_intervals in
  py_assert (footprint_ok real_bw dx L) ;;;
  (* Evaluate the kernel once *)
  grids <- lift (map_result footprint_grid (combine dx L)) ;;
  let kernel_grid := cartesian grids in
  emit (CallKernel kernel_grid (bw s) (norm s)) ;;;
  let kernel_weights := kernel_call (kernel s) kernel_grid (bw s) (norm s) in
  (* Reshape in preparation to *)
  k_shape <- lift (map_result footprint_size L) ;;
  kernel_nd <- lift (np_reshape kernel_weights k_shape) ;;
  data_nd <- lift (np_reshape binned (map Z.of_nat num_grid_points)) ;;
  (* Step 3 - Performing the convolution *)
  emit (CallConvolve data_nd kernel_nd) ;;;
  conv <- lift (scipy_convolve_same data_nd kernel_nd) ;;
  ret {| l_bw := b; l_data := binned; l_num_grid_points := num_grid_points;
         l_num_intervals := num_intervals; l_dx := dx; l_real_bw := real_bw;
         l_L := L; l_grids := grids; l_kernel_grid := kernel_grid;
         l_kernel_weights := kernel_nd; l_data_nd := data_nd;
         l_convolved := conv; l_evaluated := nd_flat conv |}.

(** The body of [evaluate] up to the convolution: the base class sets and
    verifies [self.grid_points], the bandwidth is resolved, and the three
    steps run. *)
Definition evaluate_body (E : Collab) (req : grid_request) : M locals :=
  (* This method sets self.grid_points and verifies it *)
  BaseKDE_evaluate E req ;;;
  b <- resolve_bw ;;
  evaluate_rest E b.

(** [FFTKDE.evaluate(grid_points)]. *)
Definition evaluate (E : Collab) (req : grid_request) : M retval :=
  loc <- evaluate_body E req ;;
  g <- attr "grid_points" grid_points ;;
  _evalate_return_logic (l_evaluated loc) g.

(** [evaluate] from line 139 to its end. *)
Definition evaluate_tail (E : Collab) (b : pyval) : M retval :=
  loc <- evaluate_rest E b ;;
  g <- attr "grid_points" grid_points ;;
  _evalate_return_logic (l_evaluated loc) g.

(** Running a method on an instance with an empty call log. *)
Definition run {A} (c : M A) (s : FFTKDE) : result A * world :=
  c {| self := s; calls := [] |}.

(** ** Concrete collaborators and inputs for the examples *)

Module Demo.

(** A finite-support kernel of support 1 with constant weight: its value
    plays no role in what the examples observe. *)
Definition box : Kernel :=
  {| finite_support := true;
     support := Fin 1;
     practical_support := fun b => b;
     kernel_call := fun pts _ _ => map (fun _ => Fin 1) pts |}.

(** A kernel without finite support, negligible beyond 4 bandwidths. *)
Definition wide : Kernel :=
  {| finite_support := false;
     support := NaN;
     practical_support := fun b => fmul (Fin 4) b;
     kernel_call := fun pts _ _ => map (fun _ => Fin 1) pts |}.

(** A binning that gives each node the weight of the points lying on it. *)
Definition hits (d : dataset) (w : list Q) (node : list Q) : float64 :=
  fsum (map (fun p => if nodes_eqb (fst p) node then Fin (snd p) else Fin 0)
            (combine d w)).

Definition bins (d : dataset) (g : ndgrid) (w : list Q) : list float64 :=
  map (hits d w) (g_rows g).

Definition grid1 (xs : list Q) : ndgrid :=
  {| g_dim := 1; g_rows := map (fun x => [x]) xs |}.

(** The four-point grid spanning [-1, 1]. *)
Definition grid4 : ndgrid := grid1 [-1; -(1#3); 1#3; 1].

Definition collab : Collab :=
  {| base_init := fun name b =>
       if String.eqb name "box" then Ok (box, b)
       else if String.eqb name "wide" then Ok (wide, b)
       else Raise (BaseError "unknown kernel");
     autogrid := fun _ _ => grid1 [0; 1; 2; 3; 4];
     bin_mass := bins;
     grid_tol := 1 # 1000000 |}.

Definition sample : dataset := [[0]; [1#3]; [1#3]; [1]].

(** An instance with the box kernel, fitted to [sample]. *)
Definition fitted (b : pyval) (w : option (list Q)) : FFTKDE :=
  {| kernel := box; bw := b; norm := PyNum (Fin 2); data := Some sample;
     weights := w; grid_points := None; user_supplied_grid := false |}.

End Demo.

(** ** Notions used in the statements and proofs *)

Definition with_self (w : world) (s : FFTKDE) : world :=
  {| self := s; calls := calls w |}.

(** Membership up to equality of rationals. *)
Definition InQ (x : Q) (l : list Q) : Prop := Exists (Qeq x) l.

Fixpoint increasing (l : list Q) : Prop :=
  match l with
  | [] => True
  | x :: r => Forall (Qlt x) r /\ increasing r
  end.

(** A relation between the world before and after that a computation
    maintains whatever its outcome. *)
Definition respects {A} (R : world -> world -> Prop) (c : M A) : Prop :=
  forall w r w', c w = (r, w') -> R w w'.

(** What the part of [evaluate] after the bandwidth (from line 139 on)
    leaves alone: the whole instance; it only adds calls that are not calls
    of a bandwidth rule. *)
Definition only_calls (w w' : world) : Prop :=
  self w' = self w /\
  exists l, calls w' = calls w ++ l /\ filter is_rule_call l = [].

(** Computations that never raise a given exception. *)
Definition never_raises {A} (e : exn) (c : M A) : Prop :=
  forall w w', c w <> (Raise e, w').

(** The facts that hold of the local variables once [evaluate] got through
    the convolution, for the instance [s], fitted data [d] and grid [g] it
    ran on. *)
Record body_facts (E : Collab) (s : FFTKDE) (d : dataset) (g : ndgrid)
    (loc : locals) : Prop := {
  bf_binned : l_data loc = linear_binning E d g (weights s);
  bf_spacing : exists sp,
      grid_spacing g = Ok sp /\
      l_num_grid_points loc = sp_num_grid_points sp /\
      l_num_intervals loc = sp_num_intervals sp /\
      l_dx loc = sp_dx sp;
  bf_real_bw : real_extent s = Ok (l_real_bw loc);
  bf_L : l_L loc = zip_with (footprint (l_real_bw loc)) (l_dx loc) (l_num_intervals loc);
  bf_assert : footprint_ok (l_real_bw loc) (l_dx loc) (l_L loc) = true;
  bf_grids : map_result footprint_grid (combine (l_dx loc) (l_L loc)) = Ok (l_grids loc);
  bf_kernel_grid : l_kernel_grid loc = cartesian (l_grids loc);
  bf_kernel_nd : exists k_shape,
      map_result footprint_size (l_L loc) = Ok k_shape /\
      np_reshape (kernel_call (kernel s) (l_kernel_grid loc) (bw s) (norm s)) k_shape
      = Ok (l_kernel_weights loc);
  bf_data_nd :
      np_reshape (l_data loc) (map Z.of_nat (l_num_grid_points loc)) = Ok (l_data_nd loc);
  bf_conv :
      scipy_convolve_same (l_data_nd loc) (l_kernel_weights loc) = Ok (l_convolved loc);
  bf_evaluated : l_evaluated loc = nd_flat (l_convolved loc)
}.

(** The values of [bw] that lines 131-136 refuse: neither callable nor a
    number greater than zero.  (A complex number is a number; comparing it
    with zero raises a TypeError instead.) *)
Definition bw_refused (v : pyval) : bool :=
  match v with
  | PyNum x => negb (flt (Fin 0) x)
  | PyStr _ | PyNone => true
  | PyComplex _ _ | PyCallable _ => false
  end.

(** The element of each axis that a multi-index selects. *)
Fixpoint pick {A} (axes : list (list A)) (idx : list Z) : option (list A) :=
  match axes, idx with
  | [], [] => Some []
  | a :: r, i :: idx' =>
      match nth_error a (Z.to_nat i), pick r idx' with
      | Some x, Some xs => Some (x :: xs)
      | _, _ => None
      end
  | _, _ => None
  end.

Definition ranges (s : list nat) : list (list Z) :=
  map (fun n => map Z.of_nat (seq 0 n)) s.

Definition grid_flat_axis : ndgrid :=
  {| g_dim := 2; g_rows := [[0; 5]; [1; 5]; [2; 5]] |}.

(** ** Notions used in the further properties *)



(** The collaborator that a call in the log went to. *)
Inductive call_kind : Type := KRule | KBinning | KKernel | KConvolve.

Definition kind_of (e : event) : call_kind :=
  match e with
  | CallBwRule _ => KRule
  | CallBinning _ _ _ => KBinning
  | CallKernel _ _ _ => KKernel
  | CallConvolve _ _ => KConvolve
  end.

(** An instance of the box kernel on which [fit] was never called. *)
Definition unfitted (b : pyval) : FFTKDE :=
  {| kernel := Demo.box; bw := b; norm := PyNum (Fin 2); data := None;
     weights := None; grid_points := None; user_supplied_grid := false |}.


(** * Properties *)

(** ** Lists and fallible maps *)

Lemma map_result_length {A B} (f : A -> result B) (l : list A) (bs : list B) :
  map_result f l = Ok bs -> List.length bs = List.length l.
Proof.
  revert bs; induction l as [|a r IH]; intros bs H; simpl in H.
  - inversion H; reflexivity.
  - destruct (f a); [|discriminate].
    destruct (map_result f r); [|discriminate].
    inversion H; subst; simpl; f_equal; apply IH; reflexivity.
Qed.

Lemma map_result_nth {A B} (f : A -> result B) (l : list A) (bs : list B) i v :
  map_result f l = Ok bs -> nth_error l i = Some v ->
  exists b, nth_error bs i = Some b /\ f v = Ok b.
Proof.
  revert bs i; induction l as [|x r IH]; intros bs i H Hi.
  - destruct i; discriminate.
  - simpl in H. destruct (f x) eqn:Hx; [|discriminate].
    destruct (map_result f r) eqn:Hr; [|discriminate].
    inversion H; subst; clear H.
    destruct i; simpl in *.
    + inversion Hi; subst. eexists; split; [reflexivity|assumption].
    + eapply IH; [reflexivity|assumption].
Qed.

Lemma map_result_nth_inv {A B} (f : A -> result B) (l : list A) (bs : list B) i v :
  map_result f l = Ok bs -> nth_error bs i = Some v ->
  exists a, nth_error l i = Some a /\ f a = Ok v.
Proof.
  revert bs i; induction l as [|x r IH]; intros bs i H Hi.
  - inversion H; subst. destruct i; discriminate.
  - simpl in H. destruct (f x) eqn:Hx; [|discriminate].
    destruct (map_result f r) eqn:Hr; [|discriminate].
    inversion H; subst; clear H.
    destruct i; simpl in *.
    + inversion Hi; subst. eexists; split; [reflexivity|assumption].
    + eapply IH; [reflexivity|assumption].
Qed.

Lemma map_result_raise {A B} (f : A -> result B) (l : list A) e :
  map_result f l = Raise e -> exists a, In a l /\ f a = Raise e.
Proof.
  induction l as [|x r IH]; simpl; intros H; [discriminate|].
  destruct (f x) as [y|e0] eqn:Hx.
  - destruct (map_result f r) as [ys|e1]; [discriminate|].
    inversion H; subst. destruct IH as [a [Ha Hf]]; [reflexivity|].
    exists a; auto.
  - inversion H; subst. exists x; auto.
Qed.

Lemma zip_with_length {A B C} (f : A -> B -> C) l l' :
  List.length (zip_with f l l') = Nat.min (List.length l) (List.length l').
Proof.
  revert l'; induction l as [|a r IH]; intros [|b r']; simpl; auto.
Qed.

Lemma zip_with_nth {A B C} (f : A -> B -> C) l l' i c :
  nth_error (zip_with f l l') i = Some c <->
  exists a b, nth_error l i = Some a /\ nth_error l' i = Some b /\ c = f a b.
Proof.
  revert l' i; induction l as [|a r IH]; intros [|b r'] i; simpl.
  - split; [destruct i; discriminate|intros [? [? [H _]]]; destruct i; discriminate].
  - split; [destruct i; discriminate|intros [? [? [H _]]]; destruct i; discriminate].
  - split; [destruct i; discriminate|intros [? [? [_ [H _]]]]; destruct i; discriminate].
  - destruct i; simpl.
    + split.
      * intros H; inversion H; subst; eauto.
      * intros [x [y [Hx [Hy Hc]]]]; inversion Hx; inversion Hy; subst; reflexivity.
    + apply IH.
Qed.

Lemma combine_nth_error {A B} (l : list A) (l' : list B) i p :
  nth_error (combine l l') i = Some p <->
  nth_error l i = Some (fst p) /\ nth_error l' i = Some (snd p).
Proof.
  revert l' i; induction l as [|a r IH]; intros [|b r'] i; simpl.
  - split; [destruct i; discriminate|intros [H _]; destruct i; discriminate].
  - split; [destruct i; discriminate|intros [H _]; destruct i; discriminate].
  - split; [destruct i; discriminate|intros [_ H]; destruct i; discriminate].
  - destruct i; simpl.
    + destruct p as [x y]; simpl. split.
      * intros H; inversion H; auto.
      * intros [Hx Hy]; inversion Hx; inversion Hy; reflexivity.
    + apply IH.
Qed.

Lemma seq_nth_error (n i : nat) :
  (i < n)%nat -> nth_error (seq 0 n) i = Some i.
Proof.
  intros H. rewrite (nth_error_nth' _ 0%nat); [|now rewrite length_seq].
  now rewrite seq_nth.
Qed.

(** ** Distinct values, minimum and maximum of a column *)

Lemma InQ_cons x y l : InQ x (y :: l) <-> x == y \/ InQ x l.
Proof.
  unfold InQ; split; intros H.
  - inversion H; subst; auto.
  - destruct H; [now constructor 1|now constructor 2].
Qed.

Lemma InQ_nil x : ~ InQ x [].
Proof. intros H; inversion H. Qed.

Lemma insert_unique_InQ z x l :
  InQ z (insert_unique x l) <-> z == x \/ InQ z l.
Proof.
  induction l as [|y r IH]; simpl.
  - rewrite InQ_cons. reflexivity.
  - destruct (Qcompare_spec x y) as [Heq|Hlt|Hgt].
    + rewrite InQ_cons. split; [auto|].
      intros [H|H]; [left; rewrite H; exact Heq|exact H].
    + rewrite !InQ_cons. reflexivity.
    + rewrite !InQ_cons, IH. tauto.
Qed.

Lemma insert_unique_increasing x l :
  increasing l -> increasing (insert_unique x l).
Proof.
  induction l as [|y r IH]; simpl; intros H.
  - split; [constructor|exact I].
  - destruct H as [Hy Hr].
    destruct (Qcompare_spec x y) as [Heq|Hlt|Hgt]; simpl.
    + split; assumption.
    + split; [|split; assumption].
      constructor; [assumption|].
      eapply Forall_impl; [|exact Hy]. intros a Ha. lra.
    + split; [|apply IH; assumption].
      rewrite Forall_forall. intros a Ha.
      assert (Hq : InQ a (insert_unique x r)).
      { apply Exists_exists. exists a. split; [assumption|reflexivity]. }
      apply insert_unique_InQ in Hq. destruct Hq as [Hq|Hq].
      * lra.
      * apply Exists_exists in Hq. destruct Hq as [b [Hb Hab]].
        rewrite Forall_forall in Hy. specialize (Hy b Hb). lra.
Qed.

Lemma np_unique_InQ z xs : InQ z (np_unique xs) <-> InQ z xs.
Proof.
  induction xs as [|x r IH]; simpl; [reflexivity|].
  rewrite insert_unique_InQ, InQ_cons, IH. reflexivity.
Qed.

Lemma np_unique_increasing xs : increasing (np_unique xs).
Proof.
  induction xs as [|x r IH]; simpl; [exact I|].
  apply insert_unique_increasing; assumption.
Qed.

Lemma In_InQ x l : In x l -> InQ x l.
Proof.
  intros H. apply Exists_exists. exists x. split; [assumption|reflexivity].
Qed.

(** One distinct value: every entry of the column equals it. *)
Lemma np_unique_one xs :
  List.length (np_unique xs) = 1%nat ->
  exists u, forall x, In x xs -> x == u.
Proof.
  intros H. destruct (np_unique xs) as [|u [|v r]] eqn:Hu; try discriminate.
  exists u. intros x Hx.
  apply In_InQ, np_unique_InQ in Hx. rewrite Hu in Hx.
  apply InQ_cons in Hx. destruct Hx as [Hx|Hx]; [assumption|].
  elim (InQ_nil _ Hx).
Qed.

(** Two distinct values or more: two entries of the column differ. *)
Lemma np_unique_two xs :
  (2 <= List.length (np_unique xs))%nat ->
  exists a b, In a xs /\ In b xs /\ a < b.
Proof.
  intros H. destruct (np_unique xs) as [|u [|v r]] eqn:Hu; simpl in H; try lia.
  assert (Hinc := np_unique_increasing xs). rewrite Hu in Hinc.
  destruct Hinc as [Huv _]. inversion Huv; subst.
  assert (Ha : InQ u xs).
  { apply np_unique_InQ. rewrite Hu. apply InQ_cons. left; reflexivity. }
  assert (Hb : InQ v xs).
  { apply np_unique_InQ. rewrite Hu. apply InQ_cons. right.
    apply InQ_cons. left; reflexivity. }
  apply Exists_exists in Ha. destruct Ha as [a [Ha Hua]].
  apply Exists_exists in Hb. destruct Hb as [b [Hb Hvb]].
  exists a, b. repeat split; try assumption. lra.
Qed.

Lemma np_unique_nonempty xs :
  xs <> [] -> (1 <= List.length (np_unique xs))%nat.
Proof.
  destruct xs as [|x r]; [congruence|]. intros _.
  assert (H : InQ x (np_unique (x :: r))).
  { apply np_unique_InQ, InQ_cons. left; reflexivity. }
  destruct (np_unique (x :: r)); [elim (InQ_nil _ H)|simpl; lia].
Qed.

Lemma qmin_spec a b : qmin a b <= a /\ qmin a b <= b /\ (qmin a b = a \/ qmin a b = b).
Proof.
  unfold qmin. destruct (Qle_bool a b) eqn:H.
  - apply Qle_bool_iff in H. repeat split; auto; lra.
  - assert (~ a <= b) by (rewrite <- Qle_bool_iff; congruence).
    repeat split; auto; lra.
Qed.

Lemma qmax_spec a b : a <= qmax a b /\ b <= qmax a b /\ (qmax a b = a \/ qmax a b = b).
Proof.
  unfold qmax. destruct (Qle_bool a b) eqn:H.
  - apply Qle_bool_iff in H. repeat split; auto; lra.
  - assert (~ a <= b) by (rewrite <- Qle_bool_iff; congruence).
    repeat split; auto; lra.
Qed.

Lemma fold_qmin_spec r x :
  (forall y, In y (x :: r) -> fold_left qmin r x <= y) /\ In (fold_left qmin r x) (x :: r).
Proof.
  revert x; induction r as [|z r IH]; intros x; simpl.
  - split; [intros y [->|[]]; lra|auto].
  - destruct (IH (qmin x z)) as [Hle Hin].
    destruct (qmin_spec x z) as [H1 [H2 H3]].
    split.
    + intros y [<-|[<-|Hy]].
      * specialize (Hle (qmin x z) (or_introl eq_refl)). lra.
      * specialize (Hle (qmin x z) (or_introl eq_refl)). lra.
      * apply Hle. right; assumption.
    + destruct Hin as [Hin|Hin]; [|auto].
      rewrite <- Hin. destruct H3 as [->| ->]; auto.
Qed.

Lemma fold_qmax_spec r x :
  (forall y, In y (x :: r) -> y <= fold_left qmax r x) /\ In (fold_left qmax r x) (x :: r).
Proof.
  revert x; induction r as [|z r IH]; intros x; simpl.
  - split; [intros y [->|[]]; lra|auto].
  - destruct (IH (qmax x z)) as [Hle Hin].
    destruct (qmax_spec x z) as [H1 [H2 H3]].
    split.
    + intros y [<-|[<-|Hy]].
      * specialize (Hle (qmax x z) (or_introl eq_refl)). lra.
      * specialize (Hle (qmax x z) (or_introl eq_refl)). lra.
      * apply Hle. right; assumption.
    + destruct Hin as [Hin|Hin]; [|auto].
      rewrite <- Hin. destruct H3 as [->| ->]; auto.
Qed.

Lemma np_min_spec xs lo :
  np_min xs = Ok lo -> (forall y, In y xs -> lo <= y) /\ In lo xs.
Proof.
  destruct xs as [|x r]; simpl; intros H; [discriminate|].
  inversion H; subst. apply fold_qmin_spec.
Qed.

Lemma np_max_spec xs hi :
  np_max xs = Ok hi -> (forall y, In y xs -> y <= hi) /\ In hi xs.
Proof.
  destruct xs as [|x r]; simpl; intros H; [discriminate|].
  inversion H; subst. apply fold_qmax_spec.
Qed.

(** ** Arithmetic of the idealised floats *)

Lemma flt_Fin x y : flt (Fin x) (Fin y) = true <-> x < y.
Proof.
  simpl. rewrite negb_true_iff. split; intros H.
  - apply Qnot_le_lt. rewrite <- Qle_bool_iff. congruence.
  - destruct (Qle_bool y x) eqn:E; [|reflexivity].
    apply Qle_bool_iff in E. lra.
Qed.

Lemma flt_Fin_false x y : flt (Fin x) (Fin y) = false <-> y <= x.
Proof.
  simpl. rewrite negb_false_iff. apply Qle_bool_iff.
Qed.

Lemma fdiv_Fin_pos x y :
  0 < y -> fdiv (Fin x) (Fin y) = Fin (Qred (x / y)).
Proof.
  intros H. simpl. destruct (Qcompare_spec y 0); try reflexivity. lra.
Qed.

Lemma fsub_Fin x y : exists q, fsub (Fin x) (Fin y) = Fin q /\ q == x - y.
Proof.
  eexists; split; [reflexivity|]. rewrite !Qred_correct. ring.
Qed.

Lemma fmul_Fin x y : exists q, fmul (Fin x) (Fin y) = Fin q /\ q == x * y.
Proof.
  eexists; split; [reflexivity|]. apply Qred_correct.
Qed.

Lemma fminimum_Z a b :
  fminimum (of_Z a) (of_Z b) = of_Z (Z.min a b).
Proof.
  unfold fminimum, of_Z.
  destruct (flt (Fin (inject_Z b)) (Fin (inject_Z a))) eqn:E.
  - apply flt_Fin in E. rewrite <- Zlt_Qlt in E.
    rewrite Z.min_r by lia. reflexivity.
  - apply flt_Fin_false in E. rewrite <- Zle_Qle in E.
    rewrite Z.min_l by lia. reflexivity.
Qed.

(** The spacing of an axis with a single distinct value is 0/0. *)
Lemma axis_spacing_single xs lo hi :
  np_min xs = Ok lo -> np_max xs = Ok hi ->
  List.length (np_unique xs) = 1%nat ->
  fdiv (fsub (Fin hi) (Fin lo)) (of_Z (Z.of_nat 1 - 1)) = NaN.
Proof.
  intros Hlo Hhi Hone.
  destruct (np_unique_one xs Hone) as [u Hu].
  apply np_min_spec in Hlo. apply np_max_spec in Hhi.
  assert (Hl : lo == u) by (apply Hu; tauto).
  assert (Hh : hi == u) by (apply Hu; tauto).
  destruct (fsub_Fin hi lo) as [q [-> Hq]].
  change (of_Z (Z.of_nat 1 - 1)) with (Fin 0).
  simpl. unfold signed_inf.
  assert (q == 0) as Hz by (rewrite Hq, Hl, Hh; ring).
  apply Qeq_alt in Hz. rewrite Hz. reflexivity.
Qed.

(** With two distinct values or more it is a positive rational. *)
Lemma axis_spacing_multi xs lo hi :
  np_min xs = Ok lo -> np_max xs = Ok hi ->
  (2 <= List.length (np_unique xs))%nat ->
  exists q,
    fdiv (fsub (Fin hi) (Fin lo))
         (of_Z (Z.of_nat (List.length (np_unique xs)) - 1)) = Fin q /\
    q == (hi - lo) / inject_Z (Z.of_nat (List.length (np_unique xs)) - 1) /\
    0 < q.
Proof.
  intros Hlo Hhi Htwo.
  destruct (np_unique_two xs Htwo) as [a [b [Ha [Hb Hab]]]].
  apply np_min_spec in Hlo. apply np_max_spec in Hhi.
  assert (lo <= a) by (apply Hlo; assumption).
  assert (b <= hi) by (apply Hhi; assumption).
  destruct (fsub_Fin hi lo) as [q [-> Hq]].
  set (n := (Z.of_nat (List.length (np_unique xs)) - 1)%Z).
  assert (Hn : 0 < inject_Z n).
  { change 0 with (inject_Z 0). rewrite <- Zlt_Qlt. unfold n. lia. }
  unfold of_Z. rewrite fdiv_Fin_pos by assumption.
  eexists; split; [reflexivity|].
  rewrite Qred_correct, Hq. split; [reflexivity|].
  apply Qlt_shift_div_l; [assumption|]. lra.
Qed.

(** ** The spacing stage (lines 144-151) *)

Lemma map_result_ok {A B} (f : A -> result B) (l : list A) :
  (forall a, In a l -> exists b, f a = Ok b) ->
  exists bs, map_result f l = Ok bs.
Proof.
  induction l as [|x r IH]; intros H; simpl.
  - eexists; reflexivity.
  - destruct (H x (or_introl eq_refl)) as [b Hb]. rewrite Hb.
    destruct IH as [bs Hbs]; [intros a Ha; apply H; right; assumption|].
    rewrite Hbs. eexists; reflexivity.
Qed.

Lemma grid_spacing_total g :
  g_rows g <> [] -> exists sp, grid_spacing g = Ok sp.
Proof.
  intros Hne. unfold grid_spacing.
  assert (Hcol : forall i, column g i <> []).
  { intros i. unfold column. destruct (g_rows g); [congruence|discriminate]. }
  destruct (map_result_ok (fun i => np_min (column g i)) (seq 0 (g_dim g)))
    as [mins ->].
  { intros i _. specialize (Hcol i). destruct (column g i); [congruence|].
    eexists; reflexivity. }
  destruct (map_result_ok (fun i => np_max (column g i)) (seq 0 (g_dim g)))
    as [maxs ->].
  { intros i _. specialize (Hcol i). destruct (column g i); [congruence|].
    eexists; reflexivity. }
  eexists; reflexivity.
Qed.

Lemma grid_spacing_axis g sp i :
  grid_spacing g = Ok sp -> (i < g_dim g)%nat ->
  let m := List.length (np_unique (column g i)) in
  exists lo hi,
    np_min (column g i) = Ok lo /\ np_max (column g i) = Ok hi /\
    nth_error (sp_num_grid_points sp) i = Some m /\
    nth_error (sp_num_intervals sp) i = Some (Z.of_nat m - 1)%Z /\
    nth_error (sp_dx sp) i =
      Some (fdiv (fsub (Fin hi) (Fin lo)) (of_Z (Z.of_nat m - 1))).
Proof.
  intros H Hi m. unfold grid_spacing in H.
  destruct (map_result _ _) as [mins|] eqn:Hmin in H; [|discriminate].
  destruct (map_result _ _) as [maxs|] eqn:Hmax in H; [|discriminate].
  inversion H; subst; clear H.
  cbn [sp_num_grid_points sp_num_intervals sp_dx].
  pose proof (seq_nth_error _ _ Hi) as Hseq.
  destruct (map_result_nth _ _ _ _ _ Hmin Hseq) as [lo [Hlo1 Hlo2]].
  destruct (map_result_nth _ _ _ _ _ Hmax Hseq) as [hi [Hhi1 Hhi2]].
  assert (Hm : nth_error
                 (map (fun i => List.length (np_unique (column g i)))
                      (seq 0 (g_dim g))) i = Some m).
  { rewrite nth_error_map, Hseq. reflexivity. }
  exists lo, hi. repeat split; try assumption.
  - apply (map_nth_error (fun m0 => (Z.of_nat m0 - 1)%Z) _ _ Hm).
  - apply zip_with_nth. eexists; eexists. repeat split.
    + apply zip_with_nth. eexists; eexists. repeat split; eassumption.
    + apply (map_nth_error of_Z). 
      apply (map_nth_error (fun m0 => (Z.of_nat m0 - 1)%Z) _ _ Hm).
Qed.

Lemma grid_spacing_lengths g sp :
  grid_spacing g = Ok sp ->
  List.length (sp_num_grid_points sp) = g_dim g /\
  List.length (sp_num_intervals sp) = g_dim g /\
  List.length (sp_dx sp) = g_dim g.
Proof.
  intros H. unfold grid_spacing in H.
  destruct (map_result _ _) as [mins|] eqn:Hmin in H; [|discriminate].
  destruct (map_result _ _) as [maxs|] eqn:Hmax in H; [|discriminate].
  apply map_result_length in Hmin, Hmax. rewrite length_seq in Hmin, Hmax.
  inversion H; subst; clear H.
  cbn [sp_num_grid_points sp_num_intervals sp_dx].
  rewrite !zip_with_length, !length_map, length_seq, Hmin, Hmax.
  repeat split; lia.
Qed.

(** Every spacing is NaN or a positive rational, according to the number of
    distinct values on the axis. *)
Lemma grid_spacing_dx g sp i :
  grid_spacing g = Ok sp -> (i < g_dim g)%nat ->
  let m := List.length (np_unique (column g i)) in
  (m = 1%nat /\ nth_error (sp_dx sp) i = Some NaN) \/
  ((2 <= m)%nat /\ exists q, nth_error (sp_dx sp) i = Some (Fin q) /\ 0 < q).
Proof.
  intros H Hi m.
  destruct (grid_spacing_axis g sp i H Hi) as [lo [hi [Hlo [Hhi [_ [_ Hdx]]]]]].
  fold m in Hdx.
  assert (Hne : column g i <> []).
  { destruct (column g i); [discriminate|congruence]. }
  pose proof (np_unique_nonempty _ Hne) as Hm. fold m in Hm.
  destruct (Nat.eq_dec m 1) as [H1|H1].
  - left. split; [assumption|]. rewrite Hdx, H1.
    f_equal. eapply axis_spacing_single; eassumption.
  - right. split; [lia|].
    destruct (axis_spacing_multi (column g i) lo hi Hlo Hhi) as [q [Hq [_ Hpos]]];
      [fold m; lia|].
    exists q. fold m in Hq. rewrite Hdx, Hq. auto.
Qed.

(** C10.  When an axis of the grid has exactly one distinct point, the
    spacing stage of [evaluate] raises nothing: it computes zero intervals
    for that axis and divides the (zero) extent by it, which gives NaN.  On
    any axis the spacing is a number exactly when the axis has at least two
    distinct points. *)
Theorem single_point_axis_divides_by_zero (g : ndgrid) (i : nat) :
  (i < g_dim g)%nat ->
  List.length (np_unique (column g i)) = 1%nat ->
  exists sp,
    grid_spacing g = Ok sp /\
    nth_error (sp_num_intervals sp) i = Some 0%Z /\
    nth_error (sp_dx sp) i = Some NaN /\
    forall j, (j < g_dim g)%nat ->
      ((exists q, nth_error (sp_dx sp) j = Some (Fin q)) <->
       (2 <= List.length (np_unique (column g j)))%nat).
Proof.
  intros Hi Hone.
  assert (Hne : g_rows g <> []).
  { intros Hnil. unfold column in Hone. rewrite Hnil in Hone. discriminate. }
  destruct (grid_spacing_total g Hne) as [sp Hsp].
  exists sp. split; [assumption|].
  destruct (grid_spacing_axis g sp i Hsp Hi) as [lo [hi [Hlo [Hhi [_ [Hn _]]]]]].
  rewrite Hone in Hn. split; [exact Hn|].
  split.
  - destruct (grid_spacing_dx g sp i Hsp Hi) as [[_ H]|[H _]]; [assumption|lia].
  - intros j Hj.
    destruct (grid_spacing_dx g sp j Hsp Hj) as [[H1 H2]|[H1 [q [H2 _]]]].
    + split; [intros [q Hq]; congruence|lia].
    + split; [intros _; assumption|intros _; eauto].
Qed.

Lemma single_point_axis_divides_by_zero_witness :
  exists sp,
    grid_spacing grid_flat_axis = Ok sp /\
    nth_error (sp_num_intervals sp) 1 = Some 0%Z /\
    nth_error (sp_dx sp) 1 = Some NaN /\
    forall j, (j < 2)%nat ->
      ((exists q, nth_error (sp_dx sp) j = Some (Fin q)) <->
       (2 <= List.length (np_unique (column grid_flat_axis j)))%nat).
Proof.
  apply (single_point_axis_divides_by_zero grid_flat_axis 1).
  - simpl; lia.
  - reflexivity.
Defined.

(** ** Reasoning about monadic code *)

Lemma bind_inv {A B} (c : M A) (k : A -> M B) w r w' :
  bind c k w = (r, w') ->
  (exists e, c w = (Raise e, w') /\ r = Raise e) \/
  (exists a w1, c w = (Ok a, w1) /\ k a w1 = (r, w')).
Proof.
  unfold bind. destruct (c w) as [[a|e] w1]; intros H.
  - right. eauto.
  - left. inversion H; subst. eauto.
Qed.

Lemma bind_ok {A B} (c : M A) (k : A -> M B) w b w' :
  bind c k w = (Ok b, w') ->
  exists a w1, c w = (Ok a, w1) /\ k a w1 = (Ok b, w').
Proof.
  intros H. apply bind_inv in H. destruct H as [[e [_ H]]|H]; [discriminate|assumption].
Qed.

Lemma attr_inv {A} name (f : FFTKDE -> option A) w r w' :
  attr name f w = (r, w') ->
  w' = w /\
  ((exists a, f (self w) = Some a /\ r = Ok a) \/
   (f (self w) = None /\ r = Raise (AttributeError name))).
Proof.
  unfold attr, bind, get_self, ret, raise.
  destruct (f (self w)); intros H; inversion H; subst; eauto.
Qed.

Lemma attr_ok {A} name (f : FFTKDE -> option A) w a w' :
  attr name f w = (Ok a, w') -> w' = w /\ f (self w) = Some a.
Proof.
  intros H. apply attr_inv in H. destruct H as [-> [[x [H1 H2]]|[_ H]]].
  - inversion H2; subst; auto.
  - discriminate.
Qed.

Lemma lift_inv {A} (x : result A) w r w' :
  lift x w = (r, w') -> w' = w /\ r = x.
Proof. unfold lift; intros H; inversion H; auto. Qed.

Lemma get_self_inv w r w' :
  get_self w = (r, w') -> w' = w /\ r = Ok (self w).
Proof. unfold get_self; intros H; inversion H; auto. Qed.

Lemma emit_inv e w r w' :
  emit e w = (r, w') ->
  r = Ok tt /\ self w' = self w /\ calls w' = calls w ++ [e].
Proof. unfold emit; intros H; inversion H; auto. Qed.

Lemma py_assert_inv b w r w' :
  py_assert b w = (r, w') ->
  w' = w /\ ((b = true /\ r = Ok tt) \/ (b = false /\ r = Raise AssertionError)).
Proof.
  unfold py_assert, ret, raise. destruct b; intros H; inversion H; auto.
Qed.

Section Respects.
Variable R : world -> world -> Prop.
Hypothesis R_refl : forall w, R w w.
Hypothesis R_trans : forall a b c, R a b -> R b c -> R a c.

Lemma respects_bind {A B} (c : M A) (k : A -> M B) :
  respects R c -> (forall a, respects R (k a)) -> respects R (bind c k).
Proof.
  intros Hc Hk w r w' H. apply bind_inv in H.
  destruct H as [[e [H _]]|[a [w1 [H1 H2]]]].
  - eapply Hc; eassumption.
  - eapply R_trans; [eapply Hc|eapply Hk]; eassumption.
Qed.

Lemma respects_ret {A} (a : A) : respects R (ret a).
Proof. intros w r w' H; inversion H; subst; apply R_refl. Qed.

Lemma respects_raise {A} e : respects R (@raise A e).
Proof. intros w r w' H; inversion H; subst; apply R_refl. Qed.

Lemma respects_lift {A} (x : result A) : respects R (lift x).
Proof. intros w r w' H; inversion H; subst; apply R_refl. Qed.

Lemma respects_get_self : respects R get_self.
Proof. intros w r w' H; inversion H; subst; apply R_refl. Qed.

Lemma respects_attr {A} name (f : FFTKDE -> option A) : respects R (attr name f).
Proof.
  intros w r w' H. apply attr_inv in H. destruct H as [-> _]. apply R_refl.
Qed.

Lemma respects_py_assert b : respects R (py_assert b).
Proof.
  intros w r w' H. apply py_assert_inv in H. destruct H as [-> _]. apply R_refl.
Qed.
End Respects.

Lemma only_calls_refl w : only_calls w w.
Proof. split; [reflexivity|]. exists []. rewrite app_nil_r. auto. Qed.

Lemma only_calls_trans a b c : only_calls a b -> only_calls b c -> only_calls a c.
Proof.
  intros [Hs1 [l1 [Hl1 Hf1]]] [Hs2 [l2 [Hl2 Hf2]]].
  split; [congruence|]. exists (l1 ++ l2).
  rewrite Hl2, Hl1, app_assoc, filter_app, Hf1, Hf2. auto.
Qed.

Lemma only_calls_emit e : is_rule_call e = false -> respects only_calls (emit e).
Proof.
  intros He w r w' H. apply emit_inv in H. destruct H as [_ [Hs Hc]].
  split; [assumption|]. exists [e]. simpl. rewrite He. auto.
Qed.

Lemma evaluate_body_split E req :
  evaluate_body E req =
  (BaseKDE_evaluate E req ;;; b <- resolve_bw ;; evaluate_rest E b).
Proof. reflexivity. Qed.

Lemma evaluate_rest_only_calls E b : respects only_calls (evaluate_rest E b).
Proof.
  unfold evaluate_rest.
  repeat first
    [ apply (respects_attr only_calls only_calls_refl)
    | apply (respects_lift only_calls only_calls_refl)
    | apply (respects_get_self only_calls only_calls_refl)
    | apply (respects_py_assert only_calls only_calls_refl)
    | apply (respects_ret only_calls only_calls_refl)
    | apply only_calls_emit; reflexivity
    | apply (respects_bind only_calls only_calls_trans); [|intros ?]
    | progress cbv zeta ].
Qed.

(** ** The steps of [evaluate], outcome by outcome *)

Lemma BaseKDE_evaluate_inv E req w r w' :
  BaseKDE_evaluate E req w = (r, w') ->
  match req with
  | GridExplicit g =>
      (valid_grid (grid_tol E) g = true /\ r = Ok tt /\
       w' = with_self w (set_grid (self w) g true)) \/
      (valid_grid (grid_tol E) g = false /\ r = Raise InvalidGridError /\ w' = w)
  | _ =>
      (exists d, data (self w) = Some d /\ r = Ok tt /\
                 w' = with_self w (set_grid (self w) (autogrid E d req) false)) \/
      (data (self w) = None /\ r = Raise (AttributeError "data") /\ w' = w)
  end.
Proof.
  unfold BaseKDE_evaluate, attr, bind, get_self, put_self, ret, raise, with_self.
  destruct req as [| n | ns | g].
  1-3: destruct (data (self w)) as [d|]; intros H; inversion H; subst; eauto.
  destruct (valid_grid (grid_tol E) g); intros H; inversion H; subst; auto.
Qed.

Lemma resolve_bw_inv w r w' :
  resolve_bw w = (r, w') ->
  match bw (self w) with
  | PyCallable rule =>
      (exists d, data (self w) = Some d /\ r = Ok (PyNum (rule d)) /\
                 w' = {| self := set_bw (self w) (PyNum (rule d));
                         calls := calls w ++ [CallBwRule d] |}) \/
      (data (self w) = None /\ r = Raise (AttributeError "data") /\ w' = w)
  | PyNum x =>
      if flt (Fin 0) x
      then r = Ok (PyNum x) /\ w' = with_self w (set_bw (self w) (PyNum x))
      else r = Raise (ValueError bw_msg) /\ w' = w
  | PyComplex _ _ => r = Raise (TypeError type_msg) /\ w' = w
  | _ => r = Raise (ValueError bw_msg) /\ w' = w
  end.
Proof.
  unfold resolve_bw, attr, bind, get_self, put_self, emit, lift, ret, raise, with_self.
  unfold is_positive_Number, is_Number, gt_zero.
  destruct (bw (self w)) as [x | re im | str | | rule].
  - destruct (flt (Fin 0) x); intros H; inversion H; auto.
  - intros H; inversion H; auto.
  - intros H; inversion H; auto.
  - intros H; inversion H; auto.
  - destruct (data (self w)) as [d|]; simpl; intros H; inversion H; subst; eauto.
Qed.

Ltac bind_step H :=
  cbv zeta in H;
  let a := fresh "a" in
  let w1 := fresh "w" in
  let H1 := fresh "Hstep" in
  apply bind_ok in H; destruct H as (a & w1 & H1 & H).

Lemma evaluate_rest_ok E b w loc w' :
  evaluate_rest E b w = (Ok loc, w') ->
  exists d g,
    data (self w) = Some d /\ grid_points (self w) = Some g /\
    l_bw loc = b /\
    self w' = self w /\
    calls w' = calls w ++
      [CallBinning d g (weights (self w));
       CallKernel (l_kernel_grid loc) (bw (self w)) (norm (self w));
       CallConvolve (l_data_nd loc) (l_kernel_weights loc)] /\
    body_facts E (self w) d g loc.
Proof.
  unfold evaluate_rest. intros H.
  bind_step H. apply attr_ok in Hstep. destruct Hstep as [-> Hd].
  bind_step H. apply attr_ok in Hstep. destruct Hstep as [-> Hg].
  bind_step H. apply get_self_inv in Hstep. destruct Hstep as [-> Hs].
  inversion Hs; subst; clear Hs.
  bind_step H. apply emit_inv in Hstep. destruct Hstep as [_ [Hs1 Hc1]].
  bind_step H. apply lift_inv in Hstep. destruct Hstep as [-> Hsp].
  bind_step H. apply lift_inv in Hstep. destruct Hstep as [-> Hre].
  bind_step H. apply py_assert_inv in Hstep.
  destruct Hstep as [-> [[Hassert _]|[_ Hbad]]]; [|discriminate].
  bind_step H. apply lift_inv in Hstep. destruct Hstep as [-> Hgrids].
  bind_step H. apply emit_inv in Hstep. destruct Hstep as [_ [Hs2 Hc2]].
  bind_step H. apply lift_inv in Hstep. destruct Hstep as [-> Hks].
  bind_step H. apply lift_inv in Hstep. destruct Hstep as [-> Hknd].
  bind_step H. apply lift_inv in Hstep. destruct Hstep as [-> Hdnd].
  bind_step H. apply emit_inv in Hstep. destruct Hstep as [_ [Hs3 Hc3]].
  bind_step H. apply lift_inv in Hstep. destruct Hstep as [-> Hconv].
  unfold ret in H. inversion H; subst; clear H.
  exists a, a0. repeat split; try assumption; try reflexivity; simpl.
  - congruence.
  - rewrite Hc3, Hc2, Hc1, <- !app_assoc. reflexivity.
  - eexists; repeat split; symmetry; eassumption || reflexivity.
  - symmetry; assumption.
  - symmetry; assumption.
  - eexists; split; symmetry; eassumption.
  - symmetry; assumption.
  - symmetry; assumption.
Qed.

Lemma evaluate_body_ok E req w loc w' :
  evaluate_body E req w = (Ok loc, w') ->
  exists w1 w2 d g,
    BaseKDE_evaluate E req w = (Ok tt, w1) /\
    resolve_bw w1 = (Ok (l_bw loc), w2) /\
    data (self w2) = Some d /\ grid_points (self w2) = Some g /\
    self w' = self w2 /\
    calls w' = calls w2 ++
      [CallBinning d g (weights (self w2));
       CallKernel (l_kernel_grid loc) (bw (self w2)) (norm (self w2));
       CallConvolve (l_data_nd loc) (l_kernel_weights loc)] /\
    body_facts E (self w2) d g loc.
Proof.
  rewrite evaluate_body_split. intros H.
  apply bind_ok in H. destruct H as ([] & w1 & H1 & H).
  apply bind_ok in H. destruct H as (b & w2 & H2 & H).
  apply evaluate_rest_ok in H.
  destruct H as (d & g & Hd & Hg & Hb & Hs & Hc & Hf).
  subst b. exists w1, w2, d, g.
  repeat (split; [assumption|]). assumption.
Qed.

(** After a successful resolution the attribute holds the number that was
    returned. *)
Lemma resolve_bw_ok w b w' :
  resolve_bw w = (Ok b, w') ->
  bw (self w') = b /\ exists x, b = PyNum x.
Proof.
  intros H. apply resolve_bw_inv in H.
  destruct (bw (self w)) as [x | re im | str | | rule].
  - destruct (flt (Fin 0) x); destruct H as [H ->]; inversion H; subst.
    split; [reflexivity|eauto].
  - destruct H; discriminate.
  - destruct H; discriminate.
  - destruct H; discriminate.
  - destruct H as [[d [_ [H ->]]]|[_ [H _]]]; inversion H; subst.
    split; [reflexivity|eauto].
Qed.

(** ** The footprint of one axis *)

Lemma Qred_inject_Z (k : Z) : Qred (inject_Z k) = inject_Z k.
Proof.
  unfold inject_Z, Qred.
  pose proof (Z.ggcd_gcd k 1) as Hg.
  pose proof (Z.ggcd_correct_divisors k 1) as Hd.
  destruct (Z.ggcd k 1) as [gcd [r1 r2]]. simpl in *.
  rewrite Z.gcd_1_r in Hg. subst gcd. destruct Hd as [Hk H1].
  rewrite Z.mul_1_l in Hk, H1. subst r1 r2. reflexivity.
Qed.

Lemma Fin_of_Z q k : Qred q == inject_Z k -> Fin (Qred q) = of_Z k.
Proof.
  intros H. unfold of_Z. f_equal.
  rewrite <- (Qred_inject_Z k). apply Qred_complete.
  rewrite <- H. symmetry. apply Qred_correct.
Qed.

(** Line 160 on an axis of positive spacing [qd], for a finite extent. *)
Lemma footprint_finite r qd n :
  0 < qd ->
  footprint (Fin r) (Fin qd) n = of_Z (Z.min (Qfloor (r / qd)) n).
Proof.
  intros Hq. unfold footprint. rewrite fdiv_Fin_pos by assumption.
  unfold ffloor. rewrite (Qfloor_comp _ _ (Qred_correct (r / qd))).
  apply fminimum_Z.
Qed.

(** For an infinite extent the footprint is the whole grid. *)
Lemma footprint_infinite qd n :
  0 < qd -> footprint PInf (Fin qd) n = of_Z n.
Proof.
  intros Hq. unfold footprint. simpl fdiv.
  assert (H : Qle_bool 0 qd = true) by (apply Qle_bool_iff; lra).
  rewrite H. reflexivity.
Qed.

(** [int(L * 2 + 1)] for an integral footprint. *)
Lemma footprint_size_Z zl : footprint_size (of_Z zl) = Ok (2 * zl + 1)%Z.
Proof.
  unfold footprint_size, of_Z.
  change (fadd (fmul (Fin (inject_Z zl)) (Fin 2)) (Fin 1))
    with (Fin (Qred (Qred (inject_Z zl * 2) + 1))).
  assert (H : Fin (Qred (Qred (inject_Z zl * 2) + 1)) = of_Z (2 * zl + 1)).
  { apply Fin_of_Z. rewrite !Qred_correct.
    rewrite inject_Z_plus, inject_Z_mult. ring. }
  rewrite H. unfold of_Z, py_int, inject_Z. simpl.
  rewrite Z.quot_1_r. reflexivity.
Qed.

(** The assertion of line 161 on one axis, in rational terms. *)
Lemma footprint_ok_axis real_bw qd zl :
  flt (fmul (Fin qd) (of_Z zl)) real_bw = true <->
  match real_bw with
  | Fin r => qd * inject_Z zl < r
  | PInf => True
  | _ => False
  end.
Proof.
  unfold of_Z.
  change (fmul (Fin qd) (Fin (inject_Z zl))) with (Fin (Qred (qd * inject_Z zl))).
  destruct real_bw as [r | | |].
  - rewrite flt_Fin, Qred_correct. reflexivity.
  - simpl. tauto.
  - simpl. split; [discriminate|tauto].
  - simpl. split; [discriminate|tauto].
Qed.

Lemma footprint_ok_nth real_bw dx L i dxi Li :
  footprint_ok real_bw dx L = true ->
  nth_error dx i = Some dxi -> nth_error L i = Some Li ->
  flt (fmul dxi Li) real_bw = true.
Proof.
  unfold footprint_ok. rewrite forallb_forall. intros H Hdx HL.
  apply (H (dxi, Li)). apply nth_error_In with i.
  apply combine_nth_error. auto.
Qed.

(** What a completed evaluation knows of axis [i]: at least two distinct
    grid values, a positive spacing, an integral footprint given by the
    formula of line 160, and the strict inequality of line 161. *)
Lemma body_axis E s d g loc i :
  body_facts E s d g loc -> (i < g_dim g)%nat ->
  let m := List.length (np_unique (column g i)) in
  exists qd zl,
    (2 <= m)%nat /\
    nth_error (l_num_grid_points loc) i = Some m /\
    nth_error (l_num_intervals loc) i = Some (Z.of_nat m - 1)%Z /\
    nth_error (l_dx loc) i = Some (Fin qd) /\ 0 < qd /\
    nth_error (l_L loc) i = Some (of_Z zl) /\
    zl = match l_real_bw loc with
         | Fin r => Z.min (Qfloor (r / qd)) (Z.of_nat m - 1)
         | _ => (Z.of_nat m - 1)%Z
         end /\
    match l_real_bw loc with
    | Fin r => qd * inject_Z zl < r
    | PInf => True
    | _ => False
    end.
Proof.
  intros F Hi m.
  destruct (bf_spacing _ _ _ _ _ F) as [sp [Hsp [Hngp [Hni Hdx]]]].
  destruct (grid_spacing_axis g sp i Hsp Hi) as [lo [hi [_ [_ [Hm [Hn _]]]]]].
  fold m in Hm, Hn. rewrite <- Hngp in Hm. rewrite <- Hni in Hn.
  pose proof (grid_spacing_dx g sp i Hsp Hi) as Hcase. fold m in Hcase.
  rewrite <- Hdx in Hcase.
  assert (HL : forall dxi, nth_error (l_dx loc) i = Some dxi ->
               nth_error (l_L loc) i =
               Some (footprint (l_real_bw loc) dxi (Z.of_nat m - 1))).
  { intros dxi Hd. rewrite (bf_L _ _ _ _ _ F). apply zip_with_nth. eauto. }
  pose proof (bf_assert _ _ _ _ _ F) as Hassert.
  destruct Hcase as [[_ Hnan]|[Hm2 [qd [Hqd Hpos]]]].
  - pose proof (footprint_ok_nth _ _ _ _ _ _ Hassert Hnan (HL _ Hnan)) as Hbad.
    discriminate.
  - specialize (HL _ Hqd).
    pose proof (footprint_ok_nth _ _ _ _ _ _ Hassert Hqd HL) as Hlt.
    destruct (l_real_bw loc) as [r | | |] eqn:Hr.
    + rewrite footprint_finite in HL, Hlt by assumption.
      apply footprint_ok_axis in Hlt.
      exists qd, (Z.min (Qfloor (r / qd)) (Z.of_nat m - 1)).
      repeat (split; [assumption|]). split; [reflexivity|assumption].
    + rewrite footprint_infinite in HL, Hlt by assumption.
      exists qd, (Z.of_nat m - 1)%Z.
      repeat (split; [assumption|]). split; [reflexivity|exact I].
    + exfalso. revert Hlt. unfold footprint. simpl fdiv.
      assert (H : Qle_bool 0 qd = true) by (apply Qle_bool_iff; lra).
      rewrite H. simpl. unfold signed_inf.
      destruct (Qcompare_spec qd 0); simpl; discriminate.
    + discriminate.
Qed.



(** ** C1: the footprint and the extent *)




(** ** C2: the bandwidth error *)

Lemma bind_raise {A B} (c : M A) (k : A -> M B) w e w' :
  c w = (Raise e, w') -> bind c k w = (Raise e, w').
Proof. unfold bind. intros ->. reflexivity. Qed.

Lemma bind_continue {A B} (c : M A) (k : A -> M B) w a w1 :
  c w = (Ok a, w1) -> bind c k w = k a w1.
Proof. unfold bind. intros ->. reflexivity. Qed.

Section NeverRaises.
Variable e : exn.

Lemma never_bind {A B} (c : M A) (k : A -> M B) :
  never_raises e c -> (forall a, never_raises e (k a)) ->
  never_raises e (bind c k).
Proof.
  intros Hc Hk w w' H. apply bind_inv in H.
  destruct H as [[e' [H He]]|[a [w1 [_ H]]]].
  - inversion He; subst. exact (Hc _ _ H).
  - exact (Hk _ _ _ H).
Qed.

Lemma never_ret {A} (a : A) : never_raises e (ret a).
Proof. intros w w' H; inversion H. Qed.

Lemma never_get_self : never_raises e get_self.
Proof. intros w w' H; inversion H. Qed.

Lemma never_emit ev : never_raises e (emit ev).
Proof. intros w w' H; inversion H. Qed.

Lemma never_lift {A} (x : result A) : x <> Raise e -> never_raises e (lift x).
Proof. intros Hx w w' H; inversion H; subst; congruence. Qed.

Lemma never_attr {A} name (f : FFTKDE -> option A) :
  e <> AttributeError name -> never_raises e (attr name f).
Proof.
  intros He w w' H. apply attr_inv in H.
  destruct H as [_ [[a [_ H]]|[_ H]]]; inversion H; subst; congruence.
Qed.

Lemma never_py_assert b : e <> AssertionError -> never_raises e (py_assert b).
Proof.
  intros He w w' H. apply py_assert_inv in H.
  destruct H as [_ [[_ H]|[_ H]]]; inversion H; subst; congruence.
Qed.
End NeverRaises.

Lemma map_result_never {A B} (f : A -> result B) l e :
  (forall a, f a <> Raise e) -> map_result f l <> Raise e.
Proof.
  intros Hf H. apply map_result_raise in H. destruct H as [a [_ H]].
  exact (Hf a H).
Qed.

Ltac not_bw_error :=
  unfold bw_error, bw_msg, zero_size_msg; simpl;
  first [discriminate | intros ?Hneq; discriminate ?Hneq].

Lemma np_min_not_bw_error xs : np_min xs <> Raise bw_error.
Proof. destruct xs; not_bw_error. Qed.

Lemma np_max_not_bw_error xs : np_max xs <> Raise bw_error.
Proof. destruct xs; not_bw_error. Qed.

Lemma grid_spacing_not_bw_error g : grid_spacing g <> Raise bw_error.
Proof.
  unfold grid_spacing.
  destruct (map_result (fun i => np_min (column g i)) _) as [mins|e1] eqn:H1.
  - destruct (map_result (fun i => np_max (column g i)) _) as [maxs|e2] eqn:H2;
      [discriminate|].
    intros H; inversion H; subst. revert H2. apply map_result_never.
    intros i. apply np_max_not_bw_error.
  - intros H; inversion H; subst. revert H1. apply map_result_never.
    intros i. apply np_min_not_bw_error.
Qed.

Lemma real_extent_not_bw_error s : real_extent s <> Raise bw_error.
Proof.
  unfold real_extent. destruct (bw s); simpl; try not_bw_error.
  destruct (finite_support (kernel s)); not_bw_error.
Qed.

Lemma footprint_size_not_bw_error k : footprint_size k <> Raise bw_error.
Proof. unfold footprint_size. destruct (fadd _ _); not_bw_error. Qed.

Lemma np_linspace_not_bw_error a b n : np_linspace a b n <> Raise bw_error.
Proof. unfold np_linspace. destruct (n <? 0)%Z; not_bw_error. Qed.

Lemma footprint_grid_not_bw_error p : footprint_grid p <> Raise bw_error.
Proof.
  destruct p as [dx L]. unfold footprint_grid.
  destruct (footprint_size L) as [n|e] eqn:H.
  - apply np_linspace_not_bw_error.
  - intros H'; inversion H'; subst. exact (footprint_size_not_bw_error _ H).
Qed.

Lemma np_reshape_not_bw_error l dims : np_reshape l dims <> Raise bw_error.
Proof.
  unfold np_reshape. destruct dims; [not_bw_error|].
  destruct (existsb _ _); [not_bw_error|].
  destruct (_ =? _)%Z; not_bw_error.
Qed.

Lemma scipy_convolve_same_not_bw_error a b : scipy_convolve_same a b <> Raise bw_error.
Proof. unfold scipy_convolve_same. destruct (Nat.eqb _ _); not_bw_error. Qed.

Lemma evaluate_rest_not_bw_error E b : never_raises bw_error (evaluate_rest E b).
Proof.
  unfold evaluate_rest.
  repeat first
    [ apply never_attr; not_bw_error
    | apply never_get_self
    | apply never_emit
    | apply never_ret
    | apply never_py_assert; not_bw_error
    | apply never_lift;
      first [ apply grid_spacing_not_bw_error
            | apply real_extent_not_bw_error
            | apply np_reshape_not_bw_error
            | apply scipy_convolve_same_not_bw_error
            | apply map_result_never; intros ?;
              first [ apply footprint_grid_not_bw_error
                    | apply footprint_size_not_bw_error ] ]
    | apply never_bind; [|intros ?]
    | progress cbv zeta ].
Qed.

Lemma BaseKDE_evaluate_keeps E req w r w' :
  BaseKDE_evaluate E req w = (r, w') ->
  kernel (self w') = kernel (self w) /\ bw (self w') = bw (self w) /\
  norm (self w') = norm (self w) /\ data (self w') = data (self w) /\
  weights (self w') = weights (self w) /\ calls w' = calls w.
Proof.
  intros H. apply BaseKDE_evaluate_inv in H.
  destruct req as [| n | ns | g].
  1-3: destruct H as [[d [_ [_ ->]]]|[_ [_ ->]]]; simpl; auto 10.
  destruct H as [[_ [_ ->]]|[_ [_ ->]]]; simpl; auto 10.
Qed.

Lemma BaseKDE_evaluate_not_bw_error E req : never_raises bw_error (BaseKDE_evaluate E req).
Proof.
  intros w w' H. apply BaseKDE_evaluate_inv in H.
  destruct req as [| n | ns | g].
  1-3: destruct H as [[d [_ [H _]]]|[_ [H _]]]; discriminate.
  destruct H as [[_ [H _]]|[_ [H _]]]; discriminate.
Qed.

(** The outcome of lines 131-137 as a function of the attribute. *)
Lemma resolve_bw_refuses w :
  bw_refused (bw (self w)) = true <-> exists w', resolve_bw w = (Raise bw_error, w').
Proof.
  destruct (resolve_bw w) as [r w'] eqn:H.
  pose proof (resolve_bw_inv _ _ _ H) as Hinv.
  destruct (bw (self w)) as [x | re im | str | | rule]; unfold bw_refused.
  - destruct (flt (Fin 0) x); destruct Hinv as [-> ->]; simpl.
    + split; [discriminate|intros [w2 H2]; discriminate].
    + split; [eauto|reflexivity].
  - destruct Hinv as [-> ->].
    split; [discriminate|intros [w2 H2]; discriminate].
  - destruct Hinv as [-> ->]. split; [eauto|reflexivity].
  - destruct Hinv as [-> ->]. split; [eauto|reflexivity].
  - split; [discriminate|].
    intros [w2 H2].
    destruct Hinv as [[d [_ [-> _]]]|[_ [-> _]]]; discriminate.
Qed.

(** The counterexample to the claim as stated: a literal bandwidth of
    +infinity is accepted (the whole grid becomes the footprint), and so is
    a rule whose output is -1: no bandwidth error is raised for either, the
    second evaluation fails later, in [np.linspace]. *)
Lemma nonfinite_and_rule_bandwidths_accepted :
  fst (run (evaluate Demo.collab (GridExplicit Demo.grid4))
           (Demo.fitted (PyNum PInf) None))
  = Ok (RetY [Fin 3; Fin 3; Fin 3; Fin 3]) /\
  fst (run resolve_bw (Demo.fitted (PyCallable (fun _ => Fin (-1))) None))
  = Ok (PyNum (Fin (-1))) /\
  fst (run (evaluate Demo.collab (GridExplicit Demo.grid4))
           (Demo.fitted (PyCallable (fun _ => Fin (-1))) None))
  = Raise (ValueError "Number of samples must be non-negative.").
Proof.
  repeat split; vm_compute; reflexivity.
Qed.

(** C2 (amended).  [evaluate] raises the bandwidth error exactly when the
    grid step succeeded and the stored [bw] is neither callable nor a number
    greater than zero.  Nothing in it tests finiteness, and the output of a
    rule is not tested at all: when [evaluate] completes, the bandwidth
    handed to the kernel is the literal itself, or whatever the rule
    returned on the fitted data. *)
Theorem bandwidth_error_iff (E : Collab) (req : grid_request) (s : FFTKDE) :
  (fst (run (evaluate E req) s) = Raise bw_error <->
   is_ok (fst (run (BaseKDE_evaluate E req) s)) = true /\
   bw_refused (bw s) = true) /\
  (forall r w',
      run (evaluate E req) s = (Ok r, w') ->
      exists x pts,
        bw (self w') = PyNum x /\
        In (CallKernel pts (PyNum x) (norm s)) (calls w') /\
        ((bw s = PyNum x /\ flt (Fin 0) x = true) \/
         (exists rule d, bw s = PyCallable rule /\ data s = Some d /\ x = rule d))).
Proof.
  unfold run. set (w0 := {| self := s; calls := [] |}).
  split; [split|].
  - (* the error can only come from lines 131-136 *)
    intros H. destruct (evaluate E req w0) as [r w'] eqn:Hev.
    simpl in H. subst r. unfold evaluate in Hev.
    apply bind_inv in Hev. destruct Hev as [[e [Hev He]]|[loc [w1 [_ Hev]]]].
    + inversion He; subst e; clear He.
      rewrite evaluate_body_split in Hev.
      apply bind_inv in Hev. destruct Hev as [[e [Hev He]]|[[] [w1 [Hb Hev]]]].
      * inversion He; subst e. elim (BaseKDE_evaluate_not_bw_error _ _ _ _ Hev).
      * rewrite Hb. split; [reflexivity|].
        apply BaseKDE_evaluate_keeps in Hb. destruct Hb as [_ [Hbw _]].
        simpl in Hbw. rewrite <- Hbw.
        apply bind_inv in Hev. destruct Hev as [[e [Hev He]]|[b [w2 [_ Hev]]]].
        -- inversion He; subst e. apply resolve_bw_refuses. eauto.
        -- elim (evaluate_rest_not_bw_error _ _ _ _ Hev).
    + exfalso. revert Hev. 
      apply (never_bind bw_error); [apply never_attr; not_bw_error|].
      intros g. unfold _evalate_return_logic.
      apply never_bind; [apply never_get_self|intros ?; apply never_ret].
  - (* and a refused bandwidth raises it *)
    intros [Hok Href].
    destruct (BaseKDE_evaluate E req w0) as [[[]|e] w1] eqn:Hb; [|discriminate].
    pose proof (BaseKDE_evaluate_keeps _ _ _ _ _ Hb) as [_ [Hbw _]].
    simpl in Hbw. rewrite <- Hbw in Href.
    apply resolve_bw_refuses in Href. destruct Href as [w2 Hr].
    unfold evaluate. rewrite evaluate_body_split.
    erewrite bind_raise; [reflexivity|].
    erewrite bind_continue by eassumption.
    apply bind_raise. eassumption.
  - (* the bandwidth used by a completed evaluation *)
    intros r w' Hev. unfold evaluate in Hev.
    apply bind_ok in Hev. destruct Hev as (loc & w3 & Hbody & Hret).
    apply bind_ok in Hret. destruct Hret as (g & w4 & Hg & Hret).
    apply attr_ok in Hg. destruct Hg as [-> _].
    unfold _evalate_return_logic, bind, get_self, ret in Hret.
    inversion Hret; subst; clear Hret.
    apply evaluate_body_ok in Hbody.
    destruct Hbody as (w1 & w2 & d & g' & Hb & Hr & _ & _ & Hs & Hc & _).
    pose proof (BaseKDE_evaluate_keeps _ _ _ _ _ Hb)
      as [_ [Hbw [Hnorm [Hdata [_ _]]]]].
    simpl in Hbw, Hnorm, Hdata.
    pose proof (resolve_bw_ok _ _ _ Hr) as [Hbw2 [x Hx]].
    pose proof (resolve_bw_inv _ _ _ Hr) as Hinv.
    exists x, (l_kernel_grid loc).
    split; [rewrite Hs; congruence|].
    split.
    + rewrite Hc. apply in_or_app. right. right. left.
      rewrite Hbw2, Hx. f_equal.
      rewrite <- Hnorm.
      destruct (bw (self w1)) as [y | re im | str | | rule];
        try (destruct Hinv as [Hinv _]; discriminate).
      * destruct (flt (Fin 0) y); destruct Hinv as [_ ->]; [reflexivity|].
        reflexivity.
      * destruct Hinv as [[d0 [_ [_ ->]]]|[_ [Hinv _]]]; [reflexivity|discriminate].
    + rewrite Hbw in Hinv. rewrite Hdata in Hinv.
      destruct (bw s) as [y | re im | str | | rule];
        try (destruct Hinv as [Hinv _]; discriminate).
      * destruct (flt (Fin 0) y) eqn:Hy; destruct Hinv as [Hinv _];
          [|discriminate].
        left. rewrite Hx in Hinv. inversion Hinv; subst. auto.
      * right. destruct Hinv as [[d0 [Hd0 [Hinv _]]]|[_ [Hinv _]]];
          [|discriminate].
        rewrite Hx in Hinv. inversion Hinv; subst. eauto.
Qed.

Lemma bandwidth_error_iff_witness :
  fst (run (evaluate Demo.collab (GridExplicit Demo.grid4))
           (Demo.fitted (PyNum (Fin 0)) None)) = Raise bw_error /\
  exists r w' x pts,
    run (evaluate Demo.collab (GridExplicit Demo.grid4))
        (Demo.fitted (PyCallable (fun _ => Fin (3 # 2))) None) = (Ok r, w') /\
    bw (self w') = PyNum x /\ x = Fin (3 # 2) /\
    In (CallKernel pts (PyNum x) (PyNum (Fin 2))) (calls w').
Proof.
  split.
  - apply (proj1 (bandwidth_error_iff Demo.collab (GridExplicit Demo.grid4)
                    (Demo.fitted (PyNum (Fin 0)) None))).
    split; reflexivity.
  - eexists. eexists.
    assert (H : run (evaluate Demo.collab (GridExplicit Demo.grid4))
                    (Demo.fitted (PyCallable (fun _ => Fin (3 # 2))) None)
                = (Ok _, _)) by (vm_compute; reflexivity).
    destruct (proj2 (bandwidth_error_iff Demo.collab (GridExplicit Demo.grid4)
                       (Demo.fitted (PyCallable (fun _ => Fin (3 # 2))) None))
                    _ _ H) as (x & pts & Hbw & Hin & _).
    exists x, pts. split; [exact H|]. split; [exact Hbw|].
    split; [|exact Hin].
    cbn in Hbw. inversion Hbw. reflexivity.
Defined.

(** ** C3: the footprint formula *)

Lemma np_reshape_ok flat dims a :
  np_reshape flat dims = Ok a ->
  nd_shape a = map Z.to_nat dims /\ nd_flat a = flat /\
  prod_Z dims = Z.of_nat (List.length flat) /\
  Forall (fun d => (0 <= d)%Z) dims /\ dims <> [].
Proof.
  unfold np_reshape. destruct dims as [|d0 ds]; [discriminate|].
  destruct (existsb _ _) eqn:Hneg; [discriminate|].
  destruct (_ =? _)%Z eqn:Hprod; [|discriminate].
  intros H; inversion H; subst; clear H. simpl nd_shape; simpl nd_flat.
  repeat split.
  - apply Z.eqb_eq. assumption.
  - apply Forall_forall. intros d Hd.
    destruct (Z.ltb_spec d 0) as [Hlt|Hge]; [|assumption].
    assert (existsb (fun d => (d <? 0)%Z) (d0 :: ds) = true).
    { apply existsb_exists. exists d. split; [assumption|]. apply Z.ltb_lt; assumption. }
    congruence.
  - discriminate.
Qed.

Lemma body_lengths E s d g loc :
  body_facts E s d g loc ->
  List.length (l_num_grid_points loc) = g_dim g /\
  List.length (l_num_intervals loc) = g_dim g /\
  List.length (l_dx loc) = g_dim g /\
  List.length (l_L loc) = g_dim g /\
  List.length (l_grids loc) = g_dim g.
Proof.
  intros F.
  destruct (bf_spacing _ _ _ _ _ F) as [sp [Hsp [Hngp [Hni Hdx]]]].
  destruct (grid_spacing_lengths g sp Hsp) as [H1 [H2 H3]].
  rewrite <- Hngp in H1. rewrite <- Hni in H2. rewrite <- Hdx in H3.
  assert (HL : List.length (l_L loc) = g_dim g).
  { rewrite (bf_L _ _ _ _ _ F), zip_with_length. lia. }
  repeat split; try assumption.
  rewrite (map_result_length _ _ _ (bf_grids _ _ _ _ _ F)).
  rewrite length_combine. lia.
Qed.

(** The shape of the kernel weights on axis [i] is [2 L + 1]. *)
Lemma body_kernel_shape E s d g loc i zl :
  body_facts E s d g loc ->
  nth_error (l_L loc) i = Some (of_Z zl) ->
  nth_error (nd_shape (l_kernel_weights loc)) i = Some (Z.to_nat (2 * zl + 1)).
Proof.
  intros F HL.
  destruct (bf_kernel_nd _ _ _ _ _ F) as [k_shape [Hks Hre]].
  apply np_reshape_ok in Hre. destruct Hre as [-> _].
  destruct (map_result_nth _ _ _ _ _ Hks HL) as [n [Hn Hsz]].
  rewrite footprint_size_Z in Hsz. inversion Hsz; subst.
  apply map_nth_error. assumption.
Qed.



(** The other branch of the real extent: a kernel without finite support,
    here [practical_support(bw) = 4 * bw].  With [bw = 1/4] on the
    four-point grid the extent is 1 and the footprint floor(1 / (2/3)) = 1. *)
Lemma footprint_formula_practical_support :
  exists loc w',
    evaluate_body Demo.collab (GridExplicit Demo.grid4)
      {| self := set_data
                   {| kernel := Demo.wide; bw := PyNum (Fin (1 # 4));
                      norm := PyNum (Fin 2); data := None; weights := None;
                      grid_points := None; user_supplied_grid := false |}
                   Demo.sample None;
         calls := [] |}
    = (Ok loc, w') /\
    l_real_bw loc = Fin 1 /\ l_L loc = [Fin 1] /\
    nd_shape (l_kernel_weights loc) = [3%nat].
Proof.
  eexists. eexists. split; [vm_compute; reflexivity|].
  repeat split; reflexivity.
Qed.

(** ** [np.linspace] on finite end points *)

Lemma set_last_length {A} (l : list A) v : List.length (set_last l v) = List.length l.
Proof.
  induction l as [|a [|b r] IH]; simpl in *; auto.
Qed.

Lemma set_last_nth {A} (l : list A) v k :
  (k < List.length l)%nat ->
  nth_error (set_last l v) k =
  if Nat.eqb (S k) (List.length l) then Some v else nth_error l k.
Proof.
  revert k; induction l as [|a [|b r] IH]; intros k Hk; simpl in Hk; [lia| |].
  - destruct k; [reflexivity|lia].
  - destruct k as [|k].
    + reflexivity.
    + change (nth_error (set_last (a :: b :: r) v) (S k))
        with (nth_error (set_last (b :: r) v) k).
      rewrite IH by (simpl; lia). reflexivity.
Qed.

Lemma map_seq_nth {A} (f : nat -> A) n k :
  (k < n)%nat -> nth_error (map f (seq 0 n)) k = Some (f k).
Proof.
  intros H. apply map_nth_error. apply seq_nth_error. assumption.
Qed.

(** One point of the ramp, before the last one is overwritten. *)
Lemma linspace_point a b div k :
  (0 < div)%Z ->
  let delta := fsub (Fin b) (Fin a) in
  let step := fdiv delta (of_Z div) in
  exists q,
    fadd (if is_zero step
          then fmul (fdiv (of_Z k) (of_Z div)) delta
          else fmul (of_Z k) step) (Fin a) = Fin q /\
    q == a + inject_Z k * (b - a) / inject_Z div.
Proof.
  intros Hdiv delta step.
  assert (Hd : 0 < inject_Z div).
  { change 0 with (inject_Z 0). rewrite <- Zlt_Qlt. assumption. }
  destruct (fsub_Fin b a) as [dq [Hdq Hdq']]. fold delta in Hdq.
  unfold step. rewrite Hdq. unfold of_Z.
  rewrite !fdiv_Fin_pos by assumption.
  destruct (is_zero _).
  - eexists. split; [reflexivity|].
    rewrite !Qred_correct, Hdq'. field. lra.
  - eexists. split; [reflexivity|].
    rewrite !Qred_correct, Hdq'. field. lra.
Qed.

Lemma np_linspace_Fin a b num pts :
  np_linspace (Fin a) (Fin b) num = Ok pts ->
  (0 <= num)%Z /\ List.length pts = Z.to_nat num /\
  forall k, (k < Z.to_nat num)%nat ->
    exists q, nth_error pts k = Some (Fin q) /\
      q == (if (num =? 1)%Z then a
            else a + inject_Z (Z.of_nat k) * (b - a) / inject_Z (num - 1)).
Proof.
  unfold np_linspace.
  destruct (Z.ltb_spec num 0) as [Hneg|Hnum]; [discriminate|].
  intros H. assert (Hpts : pts = linspace_points (Fin a) (Fin b) num) by congruence.
  clear H. subst pts. unfold linspace_points. cbv zeta.
  split; [assumption|].
  set (n := Z.to_nat num).
  destruct (Z.ltb_spec 0 (num - 1)) as [Hdiv|Hdiv].
  - (* at least two points *)
    assert (H1 : (1 <? num)%Z = true) by (apply Z.ltb_lt; lia).
    assert (H2 : (num =? 1)%Z = false) by (apply Z.eqb_neq; lia).
    rewrite H1, H2.
    set (step := fdiv (fsub (Fin b) (Fin a)) (of_Z (num - 1))).
    set (ramp := map (fun v => fadd v (Fin a))
                   (if is_zero step
                    then map (fun v => fmul (fdiv v (of_Z (num - 1))) (fsub (Fin b) (Fin a)))
                             (map (fun k => of_Z (Z.of_nat k)) (seq 0 n))
                    else map (fun v => fmul v step)
                             (map (fun k => of_Z (Z.of_nat k)) (seq 0 n)))).
    assert (Hramp : ramp =
      map (fun k => fadd (if is_zero step
                          then fmul (fdiv (of_Z (Z.of_nat k)) (of_Z (num - 1)))
                                    (fsub (Fin b) (Fin a))
                          else fmul (of_Z (Z.of_nat k)) step) (Fin a))
          (seq 0 n)).
    { unfold ramp. destruct (is_zero step); rewrite !map_map; reflexivity. }
    assert (Hlen : List.length ramp = n).
    { rewrite Hramp, length_map, length_seq. reflexivity. }
    clearbody ramp.
    split; [rewrite set_last_length; exact Hlen|].
    intros k Hk. rewrite set_last_nth by (rewrite Hlen; exact Hk). rewrite Hlen.
    destruct (Nat.eqb_spec (S k) n) as [Hlast|Hmid].
    + exists b. split; [reflexivity|].
      assert (Hkz : inject_Z (Z.of_nat k) == inject_Z (num - 1)).
      { apply inject_Z_injective. unfold n in Hlast. lia. }
      rewrite Hkz. field.
      change 0 with (inject_Z 0). rewrite inject_Z_injective. lia.
    + rewrite Hramp, map_seq_nth by assumption.
      destruct (linspace_point a b (num - 1) (Z.of_nat k) Hdiv) as [q [Hq Hq']].
      exists q. split; [f_equal; exact Hq|exact Hq'].
  - (* one point, or none *)
    assert (H1 : (1 <? num)%Z = false) by (apply Z.ltb_ge; lia).
    rewrite H1.
    split; [rewrite !length_map, length_seq; reflexivity|].
    intros k Hk. rewrite !map_map, map_seq_nth by assumption.
    assert (Hone : num = 1%Z) by lia.
    assert (Hk0 : k = 0%nat) by lia. subst k.
    rewrite Hone. simpl (1 =? 1)%Z. cbv iota.
    destruct (fsub_Fin b a) as [dq [-> _]].
    eexists. split; [reflexivity|].
    rewrite !Qred_correct. simpl. ring.
Qed.

(** The grid of one axis of the footprint: [2 L + 1] points [(k - L) * dx],
    hence symmetric about zero with constant spacing [dx]. *)
Lemma footprint_grid_points qd zl pts :
  footprint_grid (Fin qd, of_Z zl) = Ok pts ->
  (0 <= zl)%Z /\ List.length pts = Z.to_nat (2 * zl + 1) /\
  forall k, (k < Z.to_nat (2 * zl + 1))%nat ->
    exists q, nth_error pts k = Some (Fin q) /\
      q == (inject_Z (Z.of_nat k) - inject_Z zl) * qd.
Proof.
  unfold footprint_grid. rewrite footprint_size_Z.
  unfold of_Z.
  change (fmul (fneg (Fin qd)) (Fin (inject_Z zl)))
    with (Fin (Qred (Qred (- qd) * inject_Z zl))).
  change (fmul (Fin qd) (Fin (inject_Z zl)))
    with (Fin (Qred (qd * inject_Z zl))).
  intros H. apply np_linspace_Fin in H. destruct H as [Hnum [Hlen Hpts]].
  split; [lia|]. split; [assumption|].
  intros k Hk. destruct (Hpts k Hk) as [q [Hq Hq']].
  exists q. split; [assumption|]. rewrite Hq'. clear Hq Hq' Hpts.
  destruct (Z.eqb_spec (2 * zl + 1) 1) as [H1|H1].
  - assert (zl = 0%Z) by lia. assert (k = 0%nat) by lia. subst.
    rewrite !Qred_correct. simpl. ring.
  - replace (2 * zl + 1 - 1)%Z with (2 * zl)%Z by lia.
    rewrite !Qred_correct.
    rewrite inject_Z_mult. field.
    change 0 with (inject_Z 0). rewrite inject_Z_injective. lia.
Qed.

(** ** C5: one kernel evaluation over the footprint grid *)

Lemma resolve_bw_keeps w r w' :
  resolve_bw w = (r, w') ->
  kernel (self w') = kernel (self w) /\ norm (self w') = norm (self w) /\
  data (self w') = data (self w) /\ weights (self w') = weights (self w) /\
  grid_points (self w') = grid_points (self w) /\
  user_supplied_grid (self w') = user_supplied_grid (self w) /\
  exists l, calls w' = calls w ++ l /\
            (l = [] \/ exists d, l = [CallBwRule d] /\ callable (bw (self w)) = true).
Proof.
  intros H. apply resolve_bw_inv in H.
  assert (Hnil : forall w0 : world, w' = w0 -> calls w0 = calls w ->
                 exists l, calls w' = calls w ++ l /\
                 (l = [] \/ exists d, l = [CallBwRule d] /\ callable (bw (self w)) = true)).
  { intros w0 -> Hc. exists []. rewrite app_nil_r. auto. }
  destruct (bw (self w)) as [x | re im | str | | rule].
  - destruct (flt (Fin 0) x); destruct H as [_ ->]; simpl;
      repeat (split; [reflexivity|]); eapply Hnil; reflexivity.
  - destruct H as [_ ->]. repeat (split; [reflexivity|]). eapply Hnil; reflexivity.
  - destruct H as [_ ->]. repeat (split; [reflexivity|]). eapply Hnil; reflexivity.
  - destruct H as [_ ->]. repeat (split; [reflexivity|]). eapply Hnil; reflexivity.
  - destruct H as [[d [_ [_ ->]]]|[_ [_ ->]]]; simpl.
    + repeat (split; [reflexivity|]). exists [CallBwRule d]. split; [reflexivity|].
      right. exists d. auto.
    + repeat (split; [reflexivity|]). eapply Hnil; reflexivity.
Qed.

(** A completed [evaluate], step by step, from an instance [s] and an empty
    log. *)
Lemma evaluate_ok E req s r w' :
  run (evaluate E req) s = (Ok r, w') ->
  exists loc g d rules,
    run (evaluate_body E req) s = (Ok loc, w') /\
    grid_points (self w') = Some g /\ data (self w') = Some d /\
    r = (if user_supplied_grid (self w') then RetY (l_evaluated loc)
         else RetXY g (l_evaluated loc)) /\
    kernel (self w') = kernel s /\ norm (self w') = norm s /\
    data (self w') = data s /\ weights (self w') = weights s /\
    bw (self w') = l_bw loc /\
    calls w' = rules ++
      [CallBinning d g (weights s);
       CallKernel (l_kernel_grid loc) (bw (self w')) (norm s);
       CallConvolve (l_data_nd loc) (l_kernel_weights loc)] /\
    (rules = [] \/ exists d0, rules = [CallBwRule d0]) /\
    body_facts E (self w') d g loc.
Proof.
  unfold run, evaluate. intros Hev.
  apply bind_ok in Hev. destruct Hev as (loc & w3 & Hbody & Hret).
  apply bind_ok in Hret. destruct Hret as (g & w4 & Hg & Hret).
  apply attr_ok in Hg. destruct Hg as [-> Hg].
  unfold _evalate_return_logic, bind, get_self, ret in Hret.
  inversion Hret; subst; clear Hret.
  pose proof Hbody as Hbody'.
  apply evaluate_body_ok in Hbody.
  destruct Hbody as (w1 & w2 & d & g' & Hb & Hr & Hd & Hg' & Hs & Hc & F).
  pose proof (BaseKDE_evaluate_keeps _ _ _ _ _ Hb)
    as [Hk1 [_ [Hn1 [Hd1 [Hw1 Hc1]]]]].
  pose proof (resolve_bw_keeps _ _ _ Hr)
    as [Hk2 [Hn2 [Hd2 [Hw2 [_ [_ [l [Hc2 Hl]]]]]]]].
  pose proof (resolve_bw_ok _ _ _ Hr) as [Hbw _].
  simpl in Hk1, Hn1, Hd1, Hw1, Hc1.
  assert (g' = g) by congruence. subst g'.
  exists loc, g, d, l. rewrite !Hs.
  split; [assumption|]. split; [assumption|]. split; [assumption|].
  split; [reflexivity|].
  split; [congruence|]. split; [congruence|]. split; [congruence|].
  split; [congruence|]. split; [assumption|].
  split.
  { rewrite Hc, Hc2, Hc1. simpl. rewrite Hw2, Hw1, Hn2, Hn1. reflexivity. }
  split; [|assumption].
  destruct Hl as [->|[d0 [-> _]]]; eauto.
Qed.

Lemma prod_Z_nat dims :
  Forall (fun d => (0 <= d)%Z) dims ->
  prod_Z dims = Z.of_nat (prod_nat (map Z.to_nat dims)).
Proof.
  induction 1 as [|d r Hd _ IH]; simpl; [reflexivity|].
  rewrite IH. lia.
Qed.

Lemma np_reshape_size flat dims a :
  np_reshape flat dims = Ok a ->
  List.length (nd_flat a) = prod_nat (nd_shape a).
Proof.
  intros H. apply np_reshape_ok in H.
  destruct H as [-> [-> [Hp [Hnn _]]]].
  rewrite (prod_Z_nat _ Hnn) in Hp. lia.
Qed.

(** The footprint grid of axis [i] after a completed evaluation. *)
Lemma body_axis_grid E s d g loc i :
  body_facts E s d g loc -> (i < g_dim g)%nat ->
  exists qd zl pts,
    nth_error (l_dx loc) i = Some (Fin qd) /\ 0 < qd /\
    nth_error (l_L loc) i = Some (of_Z zl) /\ (0 <= zl)%Z /\
    nth_error (l_grids loc) i = Some pts /\
    List.length pts = Z.to_nat (2 * zl + 1) /\
    (forall k, (k < Z.to_nat (2 * zl + 1))%nat ->
       exists q, nth_error pts k = Some (Fin q) /\
                 q == (inject_Z (Z.of_nat k) - inject_Z zl) * qd) /\
    nth_error (nd_shape (l_kernel_weights loc)) i = Some (List.length pts).
Proof.
  intros F Hi.
  destruct (body_lengths _ _ _ _ _ F) as [_ [_ [_ [HLlen Hglen]]]].
  destruct (body_axis _ _ _ _ _ i F Hi)
    as (qd & zl & _ & _ & _ & Hdx & Hpos & HL & _ & _).
  destruct (nth_error (l_grids loc) i) as [pts|] eqn:Hpts.
  2:{ apply nth_error_None in Hpts. lia. }
  destruct (map_result_nth_inv _ _ _ _ _ (bf_grids _ _ _ _ _ F) Hpts)
    as [[dxi Li] [Hpair Hfg]].
  apply combine_nth_error in Hpair. simpl in Hpair. destruct Hpair as [Hdx' HL'].
  rewrite Hdx in Hdx'. rewrite HL in HL'.
  inversion Hdx'; inversion HL'; subst dxi Li.
  apply footprint_grid_points in Hfg. destruct Hfg as [Hzl [Hlen Hk']].
  exists qd, zl, pts.
  repeat (split; [first [assumption|reflexivity]|]).
  rewrite Hlen. eapply body_kernel_shape; eassumption.
Qed.



(** ** C order: multi-indices and flat positions *)

Lemma flat_map_const_length {A B} (f : A -> list B) l c :
  (forall x, List.length (f x) = c) ->
  List.length (flat_map f l) = (List.length l * c)%nat.
Proof.
  intros Hf. induction l as [|a r IH]; simpl; [reflexivity|].
  rewrite length_app, Hf, IH. reflexivity.
Qed.

Lemma flat_map_const_nth {A B} (f : A -> list B) l c j k a :
  (forall x, List.length (f x) = c) ->
  nth_error l j = Some a -> (k < c)%nat ->
  nth_error (flat_map f l) (j * c + k) = nth_error (f a) k.
Proof.
  intros Hf. revert j. induction l as [|x r IH]; intros j Hj Hk.
  - destruct j; discriminate.
  - destruct j as [|j]; simpl in *.
    + inversion Hj; subst. rewrite nth_error_app1 by (rewrite Hf; assumption).
      reflexivity.
    + rewrite nth_error_app2 by (rewrite Hf; lia).
      rewrite Hf. replace (c + j * c + k - c)%nat with (j * c + k)%nat by lia.
      apply IH; assumption.
Qed.

Lemma cartesian_length {A} (axes : list (list A)) :
  List.length (cartesian axes) = prod_nat (map (@List.length A) axes).
Proof.
  induction axes as [|a r IH]; simpl; [reflexivity|].
  rewrite (flat_map_const_length _ _ (List.length (cartesian r))).
  - rewrite IH. reflexivity.
  - intros x. apply length_map.
Qed.

Lemma ravel_bound s idx k : ravel s idx = Some k -> (k < prod_nat s)%nat.
Proof.
  revert idx k; induction s as [|n s IH]; intros [|i idx] k H; simpl in H;
    try discriminate.
  - inversion H; subst. simpl. lia.
  - destruct ((0 <=? i) && (i <? Z.of_nat n))%Z eqn:Hi; [|discriminate].
    destruct (ravel s idx) as [k'|] eqn:Hr; [|discriminate].
    inversion H; subst; clear H. specialize (IH _ _ Hr).
    apply andb_true_iff in Hi. destruct Hi as [H0 H1].
    apply Z.leb_le in H0. apply Z.ltb_lt in H1. simpl.
    assert (Z.to_nat i < n)%nat by lia. nia.
Qed.

(** Row [k] of the cartesian product is made of the elements selected by
    the multi-index of flat position [k]. *)
Lemma cartesian_nth {A} (axes : list (list A)) idx k :
  ravel (map (@List.length A) axes) idx = Some k ->
  exists row, pick axes idx = Some row /\ nth_error (cartesian axes) k = Some row.
Proof.
  revert idx k; induction axes as [|a r IH]; intros [|i idx] k H; simpl in H;
    try discriminate.
  - inversion H; subst. exists []. auto.
  - destruct ((0 <=? i) && (i <? Z.of_nat (List.length a)))%Z eqn:Hi; [|discriminate].
    destruct (ravel (map (@List.length A) r) idx) as [k'|] eqn:Hr; [|discriminate].
    inversion H; subst; clear H.
    apply andb_true_iff in Hi. destruct Hi as [H0 H1].
    apply Z.leb_le in H0. apply Z.ltb_lt in H1.
    destruct (nth_error a (Z.to_nat i)) as [x|] eqn:Hx.
    2:{ apply nth_error_None in Hx. lia. }
    destruct (IH _ _ Hr) as [row [Hpick Hnth]].
    exists (x :: row). simpl. rewrite Hx, Hpick. split; [reflexivity|].
    rewrite <- cartesian_length.
    rewrite (flat_map_const_nth _ _ (List.length (cartesian r)) _ _ x).
    + rewrite nth_error_map, Hnth. reflexivity.
    + intros y. apply length_map.
    + assumption.
    + rewrite cartesian_length. eapply ravel_bound; eassumption.
Qed.

Lemma all_indices_cartesian s : all_indices s = cartesian (ranges s).
Proof.
  induction s as [|n s IH]; simpl; [reflexivity|].
  rewrite IH, flat_map_concat_map, flat_map_concat_map, map_map. reflexivity.
Qed.

Lemma ranges_length s : map (@List.length Z) (ranges s) = s.
Proof.
  induction s as [|n s IH]; simpl; [reflexivity|].
  rewrite length_map, length_seq, IH. reflexivity.
Qed.

Lemma pick_ranges s idx k : ravel s idx = Some k -> pick (ranges s) idx = Some idx.
Proof.
  revert idx k; induction s as [|n s IH]; intros [|i idx] k H; simpl in H;
    try discriminate.
  - reflexivity.
  - destruct ((0 <=? i) && (i <? Z.of_nat n))%Z eqn:Hi; [|discriminate].
    destruct (ravel s idx) as [k'|] eqn:Hr; [|discriminate].
    apply andb_true_iff in Hi. destruct Hi as [H0 H1].
    apply Z.leb_le in H0. apply Z.ltb_lt in H1.
    simpl. rewrite (IH _ _ Hr).
    rewrite map_seq_nth by lia. rewrite Z2Nat.id by assumption. reflexivity.
Qed.

Lemma all_indices_length s : List.length (all_indices s) = prod_nat s.
Proof.
  rewrite all_indices_cartesian, cartesian_length, ranges_length. reflexivity.
Qed.

(** The multi-index at flat position [k] of the enumeration is the one that
    ravels to [k]. *)
Lemma all_indices_nth s idx k :
  ravel s idx = Some k -> nth_error (all_indices s) k = Some idx.
Proof.
  intros H. rewrite all_indices_cartesian.
  destruct (cartesian_nth (ranges s) idx k) as [row [Hpick Hnth]].
  { rewrite ranges_length. assumption. }
  rewrite (pick_ranges _ _ _ H) in Hpick. inversion Hpick; subst. assumption.
Qed.

(** Every flat position of an array has a multi-index. *)
Lemma unravel_exists s k :
  (k < prod_nat s)%nat -> exists idx, ravel s idx = Some k.
Proof.
  revert k; induction s as [|n s IH]; intros k Hk; simpl in Hk.
  - exists []. simpl. f_equal. lia.
  - assert (Hc : (0 < prod_nat s)%nat) by nia.
    destruct (IH (k mod prod_nat s)%nat) as [idx Hidx].
    { apply Nat.mod_upper_bound. lia. }
    exists (Z.of_nat (k / prod_nat s) :: idx). simpl. rewrite Hidx.
    assert (Hdiv : (k / prod_nat s < n)%nat).
    { apply Nat.Div0.div_lt_upper_bound. lia. }
    assert (Hi : ((0 <=? Z.of_nat (k / prod_nat s)) &&
                  (Z.of_nat (k / prod_nat s) <? Z.of_nat n))%Z = true).
    { apply andb_true_iff. split; [apply Z.leb_le|apply Z.ltb_lt]; lia. }
    rewrite Hi. simpl. f_equal. rewrite Nat2Z.id.
    pose proof (Nat.div_mod_eq k (prod_nat s)). lia.
Qed.

(** ** C4: one density value per grid node, in the order of the grid *)

Lemma scipy_convolve_same_ok in1 in2 c :
  scipy_convolve_same in1 in2 = Ok c ->
  nd_shape c = nd_shape in1 /\
  nd_flat c = map (conv_at in1 in2) (all_indices (nd_shape in1)) /\
  List.length (nd_flat c) = prod_nat (nd_shape in1).
Proof.
  unfold scipy_convolve_same.
  destruct (Nat.eqb _ _); [|discriminate].
  intros H; inversion H; subst; clear H. simpl.
  rewrite length_map, all_indices_length. auto.
Qed.

Lemma grid_spacing_counts g sp :
  grid_spacing g = Ok sp ->
  sp_num_grid_points sp =
  map (fun i => List.length (np_unique (column g i))) (seq 0 (g_dim g)).
Proof.
  unfold grid_spacing.
  destruct (map_result (fun i => np_min (column g i)) _); [|discriminate].
  destruct (map_result (fun i => np_max (column g i)) _); [|discriminate].
  intros H; inversion H; reflexivity.
Qed.

Lemma map_to_nat_of_nat l : map Z.to_nat (map Z.of_nat l) = l.
Proof.
  rewrite map_map. rewrite <- (map_id l) at 2.
  apply map_ext. intros a. apply Nat2Z.id.
Qed.

Lemma centre_nth s i zl :
  (0 <= zl)%Z ->
  nth_error s i = Some (Z.to_nat (2 * zl + 1)) ->
  nth_error (centre s) i = Some zl.
Proof.
  intros Hz H. unfold centre. rewrite (map_nth_error _ _ _ H).
  f_equal. rewrite Z2Nat.id by lia.
  replace (2 * zl + 1 - 1)%Z with (zl * 2)%Z by lia.
  apply Z.div_mul. lia.
Qed.

(** C4.  The density that [evaluate] returns has one value per grid node:
    as many as the grid has rows, which is the product of the numbers of
    distinct values per axis.  The convolution is same-size: its output has
    the shape of the binned mass laid out on the grid.  It is centred: the
    centre of the kernel weights on each axis is the footprint [L], so the
    value at flat position [k] is the convolution taken at the cell of the
    binned mass at position [k], the mass of grid row [k].  The hypothesis
    is the contract of the binning: one mass per grid row. *)
Theorem density_one_value_per_grid_node (E : Collab) (req : grid_request)
    (s : FFTKDE) (r : retval) (w' : world) :
  (forall d g w, List.length (bin_mass E d g w) = List.length (g_rows g)) ->
  run (evaluate E req) s = (Ok r, w') ->
  exists loc g d,
    run (evaluate_body E req) s = (Ok loc, w') /\
    grid_points (self w') = Some g /\ data s = Some d /\
    let counts := map (fun i => List.length (np_unique (column g i)))
                      (seq 0 (g_dim g)) in
    List.length (density r) = List.length (g_rows g) /\
    List.length (g_rows g) = prod_nat counts /\
    nd_flat (l_data_nd loc) = linear_binning E d g (weights s) /\
    nd_shape (l_data_nd loc) = counts /\
    nd_shape (l_convolved loc) = nd_shape (l_data_nd loc) /\
    density r = nd_flat (l_convolved loc) /\
    (forall i, (i < g_dim g)%nat ->
       exists zl, nth_error (l_L loc) i = Some (of_Z zl) /\
                  nth_error (centre (nd_shape (l_kernel_weights loc))) i = Some zl) /\
    (forall k, (k < List.length (g_rows g))%nat ->
       exists idx, ravel counts idx = Some k) /\
    (forall idx k, ravel counts idx = Some k ->
       nth_error (density r) k =
         Some (conv_at (l_data_nd loc) (l_kernel_weights loc) idx) /\
       nd_get (l_data_nd loc) idx =
         nth_error (linear_binning E d g (weights s)) k).
Proof.
  intros Hbin Hev. apply evaluate_ok in Hev.
  destruct Hev as (loc & g & d & rules & Hbody & Hg & Hd & Hr & _ & _ & Hds & Hws
                   & _ & _ & _ & F).
  exists loc, g, d.
  split; [assumption|]. split; [assumption|]. split; [congruence|].
  intros counts.
  destruct (bf_spacing _ _ _ _ _ F) as [sp [Hsp [Hngp _]]].
  pose proof (grid_spacing_counts _ _ Hsp) as Hcounts. fold counts in Hcounts.
  rewrite <- Hngp in Hcounts.
  pose proof (bf_data_nd _ _ _ _ _ F) as Hdnd.
  pose proof (np_reshape_size _ _ _ Hdnd) as Hsize.
  apply np_reshape_ok in Hdnd. destruct Hdnd as [Hshape [Hflat _]].
  rewrite Hcounts, map_to_nat_of_nat in Hshape.
  pose proof (bf_binned _ _ _ _ _ F) as Hbinned. rewrite Hws in Hbinned.
  rewrite Hbinned in Hflat.
  destruct (scipy_convolve_same_ok _ _ _ (bf_conv _ _ _ _ _ F))
    as [Hcs [Hcf Hcl]].
  assert (Hdens : density r = nd_flat (l_convolved loc)).
  { rewrite Hr, <- (bf_evaluated _ _ _ _ _ F).
    destruct (user_supplied_grid (self w')); reflexivity. }
  assert (Hrows : List.length (g_rows g) = prod_nat counts).
  { rewrite <- Hshape, <- Hsize, Hflat. unfold linear_binning.
    symmetry. apply Hbin. }
  split; [rewrite Hdens, Hcl, Hshape; symmetry; assumption|].
  split; [assumption|]. split; [assumption|]. split; [assumption|].
  split; [assumption|]. split; [assumption|].
  split; [|split].
  - intros i Hi.
    destruct (body_axis_grid _ _ _ _ _ i F Hi)
      as (qd & zl & pts & _ & _ & HL & Hzl & _ & Hlen & _ & Hks).
    exists zl. split; [assumption|].
    apply centre_nth; [assumption|]. rewrite <- Hlen. assumption.
  - intros k Hk. apply unravel_exists. lia.
  - intros idx k Hidx. split.
    + rewrite Hdens, Hcf, Hshape.
      apply map_nth_error. apply all_indices_nth. assumption.
    + unfold nd_get. rewrite Hshape, Hidx, Hflat. reflexivity.
Qed.

Lemma density_one_value_per_grid_node_witness :
  exists r w' loc,
    run (evaluate Demo.collab GridNone) (Demo.fitted (PyNum (Fin (3 # 2))) None)
    = (Ok r, w') /\
    run (evaluate_body Demo.collab GridNone) (Demo.fitted (PyNum (Fin (3 # 2))) None)
    = (Ok loc, w') /\
    density r = [Fin 2; Fin 2; Fin 1; Fin 0; Fin 0] /\
    List.length (density r) = 5%nat /\
    nd_shape (l_convolved loc) = nd_shape (l_data_nd loc).
Proof.
  eexists. eexists.
  assert (H : run (evaluate Demo.collab GridNone)
                  (Demo.fitted (PyNum (Fin (3 # 2))) None) = (Ok _, _))
    by (vm_compute; reflexivity).
  assert (Hbin : forall d g w,
             List.length (bin_mass Demo.collab d g w) = List.length (g_rows g)).
  { intros d g w. simpl. unfold Demo.bins. apply length_map. }
  destruct (density_one_value_per_grid_node _ _ _ _ _ Hbin H)
    as (loc & g & d & Hbody & Hg & _ & Hlen & _ & _ & _ & Hshape & _).
  exists loc. split; [exact H|]. split; [exact Hbody|].
  split; [reflexivity|]. split; [reflexivity|exact Hshape].
Defined.

(** ** C6: an invalid explicit grid is refused before any work *)

(** C6.  An explicit grid that fails the check of the base class (it is not
    the cartesian product of equidistant axes) makes [evaluate] raise
    InvalidGridError at once: no rule, binning, kernel or convolution call
    was made, and the instance is as it was. *)
Theorem invalid_grid_rejected_first (E : Collab) (g : ndgrid) (s : FFTKDE) :
  valid_grid (grid_tol E) g = false ->
  run (evaluate E (GridExplicit g)) s =
  (Raise InvalidGridError, {| self := s; calls := [] |}).
Proof.
  intros H. unfold run, evaluate. rewrite evaluate_body_split.
  apply bind_raise. apply bind_raise.
  unfold BaseKDE_evaluate. rewrite H. reflexivity.
Qed.

Lemma invalid_grid_rejected_first_witness :
  valid_grid (grid_tol Demo.collab) (Demo.grid1 [0; 1; 3; 4]) = false /\
  run (evaluate Demo.collab (GridExplicit (Demo.grid1 [0; 1; 3; 4])))
      (Demo.fitted (PyNum (Fin 1)) None) =
  (Raise InvalidGridError,
   {| self := Demo.fitted (PyNum (Fin 1)) None; calls := [] |}).
Proof.
  split; [reflexivity|].
  apply (invalid_grid_rejected_first Demo.collab (Demo.grid1 [0; 1; 3; 4])).
  reflexivity.
Defined.

(** ** C7: what [evaluate] changes on the instance *)

Lemma return_logic_only_calls xs g : respects only_calls (_evalate_return_logic xs g).
Proof.
  unfold _evalate_return_logic.
  apply (respects_bind only_calls only_calls_trans);
    [apply (respects_get_self only_calls only_calls_refl)|].
  intros a. apply (respects_ret only_calls only_calls_refl).
Qed.

(** The course of a call of [evaluate], whatever its outcome: the grid
    step, then the bandwidth step, then steps that leave the instance alone
    and call no bandwidth rule. *)
Lemma evaluate_course E req w r w' :
  evaluate E req w = (r, w') ->
  exists r1 w1,
    BaseKDE_evaluate E req w = (r1, w1) /\
    ((is_ok r1 = false /\ w' = w1 /\ is_ok r = false) \/
     (is_ok r1 = true /\
      exists r2 w2,
        resolve_bw w1 = (r2, w2) /\
        ((is_ok r2 = false /\ w' = w2 /\ is_ok r = false) \/
         (is_ok r2 = true /\ only_calls w2 w')))).
Proof.
  unfold evaluate. rewrite evaluate_body_split. intros H.
  assert (Hbody : forall rb wb,
            (BaseKDE_evaluate E req;;; b <- resolve_bw;; evaluate_rest E b) w = (rb, wb) ->
            exists r1 w1,
              BaseKDE_evaluate E req w = (r1, w1) /\
              ((is_ok r1 = false /\ wb = w1 /\ is_ok rb = false) \/
               (is_ok r1 = true /\
                exists r2 w2,
                  resolve_bw w1 = (r2, w2) /\
                  ((is_ok r2 = false /\ wb = w2 /\ is_ok rb = false) \/
                   (is_ok r2 = true /\ only_calls w2 wb))))).
  { intros rb wb Hb. apply bind_inv in Hb.
    destruct Hb as [[e [Hb ->]]|[[] [w1 [Hb Hrest]]]].
    - exists (Raise e), wb. split; [assumption|]. left. auto.
    - exists (Ok tt), w1. split; [assumption|]. right. split; [reflexivity|].
      apply bind_inv in Hrest.
      destruct Hrest as [[e [Hr ->]]|[b [w2 [Hr Hrest]]]].
      + exists (Raise e), wb. split; [assumption|]. left. auto.
      + exists (Ok b), w2. split; [assumption|]. right. split; [reflexivity|].
        exact (evaluate_rest_only_calls E b _ _ _ Hrest). }
  apply bind_inv in H. destruct H as [[e [H ->]]|[loc [w3 [H Hk]]]].
  - apply Hbody in H. exact H.
  - apply Hbody in H. destruct H as (r1 & w1 & Hb & Hcase).
    exists r1, w1. split; [assumption|].
    destruct Hcase as [[_ [_ Hbad]]|[Hok (r2 & w2 & Hr & Hcase)]]; [discriminate|].
    right. split; [assumption|]. exists r2, w2. split; [assumption|].
    destruct Hcase as [[_ [_ Hbad]]|[Hok2 Hoc]]; [discriminate|].
    right. split; [assumption|].
    eapply only_calls_trans; [exact Hoc|].
    revert Hk.
    apply (respects_bind only_calls only_calls_trans
             (attr "grid_points" grid_points)
             (fun g => _evalate_return_logic (l_evaluated loc) g)).
    + apply (respects_attr only_calls only_calls_refl).
    + intros g. apply return_logic_only_calls.
Qed.

(** The claim as stated fails on two counts.  [evaluate] also stores the
    grid on the instance; and the value that replaces [bw] need not be
    positive: the output -1 of a rule is stored as it is, and the next call
    refuses it. *)
Lemma evaluate_stores_grid_and_unchecked_bw :
  let s := Demo.fitted (PyCallable (fun _ => Fin (-1))) None in
  let w' := snd (run (evaluate Demo.collab GridNone) s) in
  grid_points s = None /\
  grid_points (self w') = Some (Demo.grid1 [0; 1; 2; 3; 4]) /\
  bw (self w') = PyNum (Fin (-1)) /\
  fst (run (evaluate Demo.collab GridNone) (self w')) = Raise bw_error.
Proof.
  vm_compute. repeat split; reflexivity.
Qed.

(** C7 (amended).  Whatever its outcome, a call of [evaluate] leaves the
    kernel, the norm, the fitted data and the weights of the instance as
    they were (it does store the evaluation grid).  The attribute [bw] is
    either unchanged or, when it held a rule, replaced by the number the rule
    returned on the fitted data, unchecked; a rule is called at most once.
    After a call that completes, [bw] holds a number, and once [bw] is not
    callable no later call of [evaluate] calls a bandwidth rule. *)
Theorem evaluate_frame (E : Collab) (req : grid_request) (s : FFTKDE)
    (r : result retval) (w' : world) :
  run (evaluate E req) s = (r, w') ->
  kernel (self w') = kernel s /\ norm (self w') = norm s /\
  data (self w') = data s /\ weights (self w') = weights s /\
  (bw (self w') = bw s \/
   exists rule d, bw s = PyCallable rule /\ data s = Some d /\
                  bw (self w') = PyNum (rule d)) /\
  (List.length (filter is_rule_call (calls w')) <= 1)%nat /\
  (is_ok r = true -> exists x, bw (self w') = PyNum x) /\
  (callable (bw (self w')) = false ->
   forall req2 r2 w2,
     run (evaluate E req2) (self w') = (r2, w2) ->
     filter is_rule_call (calls w2) = [] /\ bw (self w2) = bw (self w')).
Proof.
  assert (Hframe : forall req0 s0 r0 w0,
    run (evaluate E req0) s0 = (r0, w0) ->
    kernel (self w0) = kernel s0 /\ norm (self w0) = norm s0 /\
    data (self w0) = data s0 /\ weights (self w0) = weights s0 /\
    (bw (self w0) = bw s0 \/
     exists rule d, bw s0 = PyCallable rule /\ data s0 = Some d /\
                    bw (self w0) = PyNum (rule d)) /\
    (filter is_rule_call (calls w0) = [] \/
     callable (bw s0) = true /\
     exists d, filter is_rule_call (calls w0) = [CallBwRule d]) /\
    (is_ok r0 = true -> exists x, bw (self w0) = PyNum x)).
  { intros req0 s0 r0 w0 Hev. unfold run in Hev.
    apply evaluate_course in Hev.
    destruct Hev as (r1 & w1 & Hb & Hcase).
    pose proof (BaseKDE_evaluate_keeps _ _ _ _ _ Hb)
      as [Hk1 [Hb1 [Hn1 [Hd1 [Hw1 Hc1]]]]].
    simpl in Hk1, Hb1, Hn1, Hd1, Hw1, Hc1.
    destruct Hcase as [[_ [-> Hr]]|[_ (r2 & w2 & Hr & Hcase)]].
    { repeat (split; [assumption|]).
      split; [left; assumption|]. split; [left; rewrite Hc1; reflexivity|].
      intros Hok. congruence. }
    pose proof (resolve_bw_keeps _ _ _ Hr)
      as [Hk2 [Hn2 [Hd2 [Hw2 [_ [_ [l [Hc2 Hl]]]]]]]].
    pose proof (resolve_bw_inv _ _ _ Hr) as Hinv.
    assert (Hbw2 : bw (self w2) = bw s0 \/
                   exists rule d, bw s0 = PyCallable rule /\ data s0 = Some d /\
                                  bw (self w2) = PyNum (rule d)).
    { rewrite Hb1, Hd1 in Hinv.
      destruct (bw s0) as [x | re im | str | | rule] eqn:Hbs.
      - destruct (flt (Fin 0) x); destruct Hinv as [_ ->]; left;
          simpl; congruence.
      - destruct Hinv as [_ ->]. left. congruence.
      - destruct Hinv as [_ ->]. left. congruence.
      - destruct Hinv as [_ ->]. left. congruence.
      - destruct Hinv as [[d [Hd [_ ->]]]|[_ [_ ->]]].
        + right. exists rule, d. simpl. auto.
        + left. congruence. }
    assert (Hrules2 : filter is_rule_call (calls w2) = [] \/
                      callable (bw s0) = true /\
                      exists d, filter is_rule_call (calls w2) = [CallBwRule d]).
    { rewrite Hc2, Hc1. simpl.
      destruct Hl as [->|[d [-> Hcall]]]; [left; reflexivity|].
      right. split; [congruence|]. exists d. reflexivity. }
    destruct Hcase as [[Hr2 [-> Hbad]]|[Hr2 [Hs [l' [Hc' Hl']]]]].
    { split; [congruence|]. split; [congruence|]. split; [congruence|].
      split; [congruence|]. split; [assumption|]. split; [assumption|].
      intros Hok. congruence. }
    rewrite Hs.
    split; [congruence|]. split; [congruence|]. split; [congruence|].
    split; [congruence|]. split; [assumption|].
    split.
    { rewrite Hc', filter_app, Hl', app_nil_r. assumption. }
    intros _. destruct r2 as [b|e]; [|discriminate].
    destruct (resolve_bw_ok _ _ _ Hr) as [Hb2 [x Hx]].
    exists x. congruence. }
  intros Hev.
  destruct (Hframe _ _ _ _ Hev) as [Hk [Hn [Hd [Hw [Hbw [Hrules Hok]]]]]].
  repeat (split; [assumption|]).
  split.
  { destruct Hrules as [->|[_ [d ->]]]; simpl; lia. }
  split; [assumption|].
  intros Hnc req2 r2 w2 Hev2.
  destruct (Hframe _ _ _ _ Hev2) as [_ [_ [_ [_ [Hbw2 [Hrules2 _]]]]]].
  split.
  - destruct Hrules2 as [H|[H _]]; [assumption|congruence].
  - destruct Hbw2 as [H|[rule [d [H _]]]]; [assumption|].
    rewrite H in Hnc. discriminate.
Qed.

Lemma evaluate_frame_witness :
  let s := Demo.fitted (PyCallable (fun _ => Fin (3 # 2))) (Some [1; 2; 3; 4]) in
  exists r w',
    run (evaluate Demo.collab GridNone) s = (r, w') /\
    bw (self w') = PyNum (Fin (3 # 2)) /\
    weights (self w') = Some [1; 2; 3; 4] /\
    filter is_rule_call (calls w') = [CallBwRule Demo.sample] /\
    filter is_rule_call (calls (snd (run (evaluate Demo.collab GridNone) (self w')))) = [].
Proof.
  intros s. eexists. eexists.
  assert (H : run (evaluate Demo.collab GridNone) s = (_, _))
    by (vm_compute; reflexivity).
  destruct (evaluate_frame _ _ _ _ _ H) as (_ & _ & _ & Hw & _ & _ & _ & Hnext).
  split; [exact H|]. split; [reflexivity|]. split; [exact Hw|].
  split; [reflexivity|].
  destruct (run (evaluate Demo.collab GridNone) _) as [r2 w2] eqn:H2 in |- *.
  exact (proj1 (Hnext eq_refl _ _ _ H2)).
Defined.

(** ** C8: unit weights and no weights *)

Lemma bind_assoc {A B C} (c : M A) (k : A -> M B) (h : B -> M C) w :
  bind (bind c k) h w = bind c (fun a => bind (k a) h) w.
Proof.
  unfold bind. destruct (c w) as [[a|e] w1]; reflexivity.
Qed.

Lemma evaluate_split E req w :
  evaluate E req w =
  (BaseKDE_evaluate E req ;;; b <- resolve_bw ;; evaluate_tail E b) w.
Proof.
  unfold evaluate. rewrite evaluate_body_split, bind_assoc.
  destruct (BaseKDE_evaluate E req w) as [[u|e] w1] eqn:Hb.
  - rewrite !(bind_continue _ _ _ _ _ Hb), bind_assoc. reflexivity.
  - rewrite !(bind_raise _ _ _ _ _ Hb). reflexivity.
Qed.

(** Two fitted instances that differ in their weights only, and in a way
    that the binning does not see, get the same result from line 139 on. *)
Lemma evaluate_tail_weights E b k bwv nv d gv u ws1 ws2 c1 c2 :
  (forall g, linear_binning E d g ws1 = linear_binning E d g ws2) ->
  fst (evaluate_tail E b
         {| self := {| kernel := k; bw := bwv; norm := nv; data := Some d;
                       weights := ws1; grid_points := gv;
                       user_supplied_grid := u |};
            calls := c1 |}) =
  fst (evaluate_tail E b
         {| self := {| kernel := k; bw := bwv; norm := nv; data := Some d;
                       weights := ws2; grid_points := gv;
                       user_supplied_grid := u |};
            calls := c2 |}).
Proof.
  intros Hbin.
  unfold evaluate_tail, evaluate_rest, _evalate_return_logic, real_extent.
  unfold attr, get_self, emit, lift, py_assert, ret, raise, bind.
  destruct gv as [g|]; [|reflexivity].
  cbn [self calls kernel bw norm data weights grid_points user_supplied_grid].
  rewrite (Hbin g).
  repeat match goal with
         | |- context [match ?x with Ok _ => _ | Raise _ => _ end] =>
             destruct x;
             cbn [self calls kernel bw norm data weights grid_points
                  user_supplied_grid fst];
             try reflexivity
         | |- context [if ?x then _ else _] =>
             destruct x;
             cbn [self calls kernel bw norm data weights grid_points
                  user_supplied_grid fst];
             try reflexivity
         end.
Qed.

(** C8.  Fitting with one unit weight per data point and fitting with no
    weights both succeed, and [evaluate] then returns the same result for
    the same grid request: the weights reach nothing but the binning, for
    which absent weights are unit weights. *)
Theorem unit_weights_as_no_weights (E : Collab) (req : grid_request)
    (s : FFTKDE) (d : dataset) :
  exists s1 s2,
    fit s d (Some (repeat 1 (List.length d))) = Ok s1 /\
    fit s d None = Ok s2 /\
    fst (run (evaluate E req) s1) = fst (run (evaluate E req) s2).
Proof.
  exists (set_data s d (Some (repeat 1 (List.length d)))), (set_data s d None).
  split; [|split; [reflexivity|]].
  { unfold fit, BaseKDE_fit. rewrite repeat_length, Nat.eqb_refl. reflexivity. }
  unfold run. rewrite !evaluate_split.
  destruct s as [k bwv nv dv ws gv u]. unfold set_data.
  cbn [kernel bw norm data weights grid_points user_supplied_grid].
  assert (Htail : forall b bw' g' u' c1 c2,
    fst (evaluate_tail E b
           {| self := {| kernel := k; bw := bw'; norm := nv; data := Some d;
                         weights := Some (repeat 1 (List.length d));
                         grid_points := g'; user_supplied_grid := u' |};
              calls := c1 |}) =
    fst (evaluate_tail E b
           {| self := {| kernel := k; bw := bw'; norm := nv; data := Some d;
                         weights := None;
                         grid_points := g'; user_supplied_grid := u' |};
              calls := c2 |})).
  { intros. apply evaluate_tail_weights. intros g. reflexivity. }
  unfold BaseKDE_evaluate, resolve_bw, set_grid, set_bw.
  unfold is_positive_Number, is_Number, gt_zero.
  unfold attr, get_self, put_self, emit, lift, ret, raise.
  destruct req as [| n | ns | g]; [| | |destruct (valid_grid (grid_tol E) g)];
    unfold bind at 1 2 3 4;
    cbn [self calls kernel bw norm data weights grid_points user_supplied_grid fst];
    try reflexivity;
    (destruct bwv as [x | re im | str | | rule];
     unfold bind;
     cbn [self calls kernel bw norm data weights grid_points
          user_supplied_grid fst];
     try reflexivity; try apply Htail;
     destruct (flt (Fin 0) x);
     cbn [self calls kernel bw norm data weights grid_points
          user_supplied_grid fst];
     try reflexivity; apply Htail).
Qed.

(** ** C9: the norm given to the constructor *)

(** A complex norm is not a positive number, yet the constructor does not
    fail with an assertion error: comparing it with zero raises a
    TypeError. *)
Lemma complex_norm_raises_type_error :
  is_Number (PyComplex 0 1) = true /\
  __init__ Demo.collab "box" (PyNum (Fin 1)) (PyComplex 0 1)
  = Raise (TypeError type_msg) /\
  __init__ Demo.collab "box" (PyNum (Fin 1)) (PyComplex 0 1)
  <> Raise AssertionError.
Proof.
  split; [reflexivity|]. split; [reflexivity|]. discriminate.
Qed.

(** C9 (amended).  The base class runs first: when it refuses the kernel or
    the bandwidth, its exception is what the constructor raises, whatever
    the norm.  Otherwise a real norm greater than zero gives an instance
    that holds this very norm; a real norm that is not greater than zero
    (zero, negative, NaN) and a norm that is not a number fail the
    assertion; a complex norm raises a TypeError in the comparison. *)
Theorem init_checks_norm (E : Collab) (kernel_arg : string) (bw_arg norm_arg : pyval) :
  match base_init E kernel_arg bw_arg with
  | Raise e => __init__ E kernel_arg bw_arg norm_arg = Raise e
  | Ok (k, b) =>
      (forall x, norm_arg = PyNum x -> flt (Fin 0) x = true ->
         exists s, __init__ E kernel_arg bw_arg norm_arg = Ok s /\
                   norm s = norm_arg /\ kernel s = k /\ bw s = b) /\
      (forall x, norm_arg = PyNum x -> flt (Fin 0) x = false ->
         __init__ E kernel_arg bw_arg norm_arg = Raise AssertionError) /\
      (is_Number norm_arg = false ->
         __init__ E kernel_arg bw_arg norm_arg = Raise AssertionError) /\
      (forall re im, norm_arg = PyComplex re im ->
         __init__ E kernel_arg bw_arg norm_arg = Raise (TypeError type_msg))
  end.
Proof.
  unfold __init__.
  destruct (base_init E kernel_arg bw_arg) as [[k b]|e]; [|reflexivity].
  cbn [norm]. unfold is_positive_Number, gt_zero.
  split; [|split; [|split]].
  - intros x -> Hx. cbn [is_Number]. rewrite Hx.
    eexists. split; [reflexivity|]. auto.
  - intros x -> Hx. cbn [is_Number]. rewrite Hx. reflexivity.
  - intros Hn. rewrite Hn. reflexivity.
  - intros re im ->. reflexivity.
Qed.

Lemma init_checks_norm_witness :
  (exists s, __init__ Demo.collab "box" (PyNum (Fin 1)) (PyNum (Fin 2)) = Ok s /\
             norm s = PyNum (Fin 2)) /\
  __init__ Demo.collab "box" (PyNum (Fin 1)) (PyNum (Fin 0)) = Raise AssertionError /\
  __init__ Demo.collab "box" (PyNum (Fin 1)) (PyStr "two") = Raise AssertionError /\
  __init__ Demo.collab "bogus" (PyNum (Fin 1)) (PyNum (Fin 0))
  = Raise (BaseError "unknown kernel").
Proof.
  split; [|split; [|split]].
  - pose proof (init_checks_norm Demo.collab "box" (PyNum (Fin 1)) (PyNum (Fin 2))) as H.
    cbn in H. destruct H as [H _].
    destruct (H _ eq_refl eq_refl) as [s [Hs [Hn _]]]. exists s. auto.
  - pose proof (init_checks_norm Demo.collab "box" (PyNum (Fin 1)) (PyNum (Fin 0))) as H.
    cbn in H. destruct H as [_ [H _]]. exact (H _ eq_refl eq_refl).
  - pose proof (init_checks_norm Demo.collab "box" (PyNum (Fin 1)) (PyStr "two")) as H.
    cbn in H. destruct H as [_ [_ [H _]]]. exact (H eq_refl).
  - exact (init_checks_norm Demo.collab "bogus" (PyNum (Fin 1)) (PyNum (Fin 0))).
Defined.

(** ** Complements *)

Lemma grid_axes_lengths g :
  map (@List.length Q) (grid_axes g) =
  map (fun i => List.length (np_unique (column g i))) (seq 0 (g_dim g)).
Proof. unfold grid_axes. apply map_map. Qed.

(** The rows of an explicit grid that passed the check are in C order: row
    [k] is, coordinate by coordinate, the node that the multi-index of flat
    position [k] selects on the sorted axes, so that the density at flat
    position [k] belongs to that node. *)
Lemma valid_grid_rows_in_C_order tol g idx k :
  valid_grid tol g = true ->
  ravel (map (fun i => List.length (np_unique (column g i))) (seq 0 (g_dim g))) idx
  = Some k ->
  exists row node,
    nth_error (g_rows g) k = Some row /\
    pick (grid_axes g) idx = Some node /\
    nodes_eqb row node = true.
Proof.
  unfold valid_grid. intros Hv Hidx.
  apply andb_true_iff in Hv. destruct Hv as [Hv _].
  apply andb_true_iff in Hv. destruct Hv as [_ Hrows].
  unfold rows_eqb in Hrows. apply andb_true_iff in Hrows.
  destruct Hrows as [Hlen Hall]. apply Nat.eqb_eq in Hlen.
  rewrite <- grid_axes_lengths in Hidx.
  destruct (cartesian_nth (grid_axes g) idx k Hidx) as [node [Hpick Hnode]].
  destruct (nth_error (g_rows g) k) as [row|] eqn:Hrow.
  2:{ apply nth_error_None in Hrow.
      assert (nth_error (cartesian (grid_axes g)) k <> None) by congruence.
      apply nth_error_Some in H. lia. }
  exists row, node. repeat split; try assumption.
  rewrite forallb_forall in Hall.
  apply (Hall (row, node)). apply nth_error_In with k.
  apply combine_nth_error. auto.
Qed.

Lemma footprint_ok_nan real_bw dx L i Li :
  nth_error dx i = Some NaN -> nth_error L i = Some Li ->
  footprint_ok real_bw dx L = false.
Proof.
  intros Hdx HL. destruct (footprint_ok real_bw dx L) eqn:H; [|reflexivity].
  pose proof (footprint_ok_nth _ _ _ _ _ _ H Hdx HL) as Hbad. discriminate.
Qed.

(** What becomes of an accepted grid with a single distinct value on some
    axis: the binning is called, the spacing of that axis is NaN, and the
    assertion of line 161 fails. *)
Lemma single_point_axis_fails_assertion E g s d x i :
  data s = Some d -> bw s = PyNum x -> flt (Fin 0) x = true ->
  valid_grid (grid_tol E) g = true ->
  (i < g_dim g)%nat -> List.length (np_unique (column g i)) = 1%nat ->
  run (evaluate E (GridExplicit g)) s =
  (Raise AssertionError,
   {| self := set_bw (set_grid s g true) (PyNum x);
      calls := [CallBinning d g (weights s)] |}).
Proof.
  intros Hd Hbw Hx Hvalid Hi Hone.
  assert (Hne : g_rows g <> []).
  { intros Hnil. unfold column in Hone. rewrite Hnil in Hone. discriminate. }
  destruct (grid_spacing_total g Hne) as [sp Hsp].
  destruct (grid_spacing_dx g sp i Hsp Hi) as [[_ Hnan]|[Hm _]]; [|lia].
  destruct (grid_spacing_lengths g sp Hsp) as [_ [Hlen1 Hlen2]].
  unfold run, evaluate, evaluate_body.
  apply bind_raise.
  erewrite bind_continue.
  2:{ unfold BaseKDE_evaluate. rewrite Hvalid. reflexivity. }
  erewrite bind_continue.
  2:{ unfold resolve_bw, bind, get_self, put_self, lift, ret.
      cbn [self calls bw set_grid]. rewrite Hbw.
      unfold is_positive_Number, is_Number, gt_zero. rewrite Hx. reflexivity. }
  unfold evaluate_rest, real_extent.
  unfold py_assert, attr, get_self, emit, lift, ret, raise, bind.
  cbn [self calls data grid_points weights bw kernel norm set_bw set_grid].
  rewrite Hd.
  cbn [self calls data grid_points weights bw kernel norm set_bw set_grid].
  rewrite Hsp.
  cbn [self calls data grid_points weights bw kernel norm set_bw set_grid as_float].
  set (rb := if finite_support (kernel s)
             then fmul (support (kernel s)) x
             else practical_support (kernel s) x).
  assert (Hre : (if finite_support (kernel s)
                 then Ok (fmul (support (kernel s)) x)
                 else Ok (practical_support (kernel s) x)) = Ok rb).
  { unfold rb. destruct (finite_support (kernel s)); reflexivity. }
  rewrite Hre.
  destruct (nth_error (zip_with (footprint rb) (sp_dx sp) (sp_num_intervals sp)) i)
    as [Li|] eqn:HL.
  2:{ apply nth_error_None in HL. rewrite zip_with_length in HL. lia. }
  rewrite (footprint_ok_nan rb _ _ i Li Hnan HL).
  reflexivity.
Qed.

(** * Further properties of [evaluate] *)

(** ** What a completed evaluation implies about the grid and the footprint *)

(** A completed evaluation ran on a grid of at least one dimension. *)
Lemma body_dim_positive E s d g loc :
  body_facts E s d g loc -> (1 <= g_dim g)%nat.
Proof.
  intros F.
  destruct (body_lengths _ _ _ _ _ F) as [Hlen _].
  pose proof (bf_data_nd _ _ _ _ _ F) as Hdnd.
  apply np_reshape_ok in Hdnd. destruct Hdnd as [_ [_ [_ [_ Hne]]]].
  destruct (l_num_grid_points loc) as [|m ms]; [elim Hne; reflexivity|].
  simpl in Hlen. lia.
Qed.

(** X1.  [evaluate] completes only on a grid of at least one dimension in
    which every axis has two distinct values or more.  On every axis the
    footprint is then an integer between 0 and the number of intervals, and
    the kernel is evaluated on an odd number of points of that axis, at
    least one and at most [2 m - 1] for an axis of [m] distinct values. *)
Theorem completed_evaluation_bounds (E : Collab) (req : grid_request)
    (w w' : world) (loc : locals) :
  evaluate_body E req w = (Ok loc, w') ->
  exists g,
    grid_points (self w') = Some g /\ (1 <= g_dim g)%nat /\
    forall i, (i < g_dim g)%nat ->
      let m := List.length (np_unique (column g i)) in
      exists zl pts,
        (2 <= m)%nat /\
        nth_error (l_L loc) i = Some (of_Z zl) /\
        (0 <= zl <= Z.of_nat m - 1)%Z /\
        nth_error (l_grids loc) i = Some pts /\
        List.length pts = Z.to_nat (2 * zl + 1) /\
        (1 <= List.length pts <= 2 * m - 1)%nat.
Proof.
  intros H. apply evaluate_body_ok in H.
  destruct H as (w1 & w2 & d & g & _ & _ & _ & Hg & Hs & _ & F).
  exists g. rewrite Hs. split; [assumption|].
  split; [exact (body_dim_positive _ _ _ _ _ F)|].
  intros i Hi m.
  destruct (body_axis _ _ _ _ _ i F Hi)
    as (qd & zl & Hm & _ & _ & _ & _ & HL & Hzl & _).
  destruct (body_axis_grid _ _ _ _ _ i F Hi)
    as (qd' & zl' & pts & _ & _ & HL' & Hpos & Hpts & Hlen & _).
  rewrite HL in HL'. inversion HL' as [Hinj]. subst zl'.
  fold m in Hm, Hzl.
  assert (Hle : (zl <= Z.of_nat m - 1)%Z).
  { rewrite Hzl. destruct (l_real_bw loc); lia. }
  exists zl, pts. repeat (split; [first [assumption|lia]|]). lia.
Qed.

Lemma completed_evaluation_bounds_witness :
  exists loc w' g,
    evaluate_body Demo.collab (GridExplicit Demo.grid4)
      {| self := Demo.fitted (PyNum (Fin 5)) None; calls := [] |}
    = (Ok loc, w') /\
    grid_points (self w') = Some g /\ (1 <= g_dim g)%nat /\
    l_L loc = [Fin 3] /\
    forall i, (i < g_dim g)%nat ->
      let m := List.length (np_unique (column g i)) in
      exists zl pts,
        (2 <= m)%nat /\
        nth_error (l_L loc) i = Some (of_Z zl) /\
        (0 <= zl <= Z.of_nat m - 1)%Z /\
        nth_error (l_grids loc) i = Some pts /\
        List.length pts = Z.to_nat (2 * zl + 1) /\
        (1 <= List.length pts <= 2 * m - 1)%nat.
Proof.
  eexists. eexists.
  assert (H : evaluate_body Demo.collab (GridExplicit Demo.grid4)
                {| self := Demo.fitted (PyNum (Fin 5)) None; calls := [] |}
              = (Ok _, _)) by (vm_compute; reflexivity).
  destruct (completed_evaluation_bounds _ _ _ _ _ H) as (g & Hg & Hd & Hax).
  exists g. split; [exact H|]. split; [exact Hg|]. split; [exact Hd|].
  split; [reflexivity|exact Hax].
Defined.

(** X2.  On a completed evaluation the real extent is positive, and every
    point at which the kernel is evaluated lies strictly inside it: each
    coordinate [q] of the footprint grid satisfies [-extent < q < extent]
    (for the extent +infinity the points are finite).  The kernel is never
    evaluated at or beyond its support. *)
Theorem kernel_grid_strictly_inside_extent (E : Collab) (req : grid_request)
    (w w' : world) (loc : locals) :
  evaluate_body E req w = (Ok loc, w') ->
  match l_real_bw loc with
  | Fin r => 0 < r
  | PInf => True
  | _ => False
  end /\
  forall i pts p,
    nth_error (l_grids loc) i = Some pts -> In p pts ->
    exists q, p = Fin q /\
              forall r, l_real_bw loc = Fin r -> - r < q /\ q < r.
Proof.
  intros H. apply evaluate_body_ok in H.
  destruct H as (w1 & w2 & d & g & _ & _ & _ & _ & _ & _ & F).
  assert (Haxis : forall i, (i < g_dim g)%nat ->
            exists qd zl pts,
              0 < qd /\ (0 <= zl)%Z /\
              nth_error (l_grids loc) i = Some pts /\
              List.length pts = Z.to_nat (2 * zl + 1) /\
              (forall k, (k < Z.to_nat (2 * zl + 1))%nat ->
                 exists q, nth_error pts k = Some (Fin q) /\
                           q == (inject_Z (Z.of_nat k) - inject_Z zl) * qd) /\
              match l_real_bw loc with
              | Fin r => qd * inject_Z zl < r
              | PInf => True
              | _ => False
              end).
  { intros i Hi.
    destruct (body_axis _ _ _ _ _ i F Hi)
      as (qd & zl & _ & _ & _ & Hdx & _ & HL & _ & Hlt).
    destruct (body_axis_grid _ _ _ _ _ i F Hi)
      as (qd' & zl' & pts & Hdx' & Hpos & HL' & Hzl & Hpts & Hlen & Hk & _).
    rewrite HL in HL'. inversion HL' as [Hinj]. subst zl'.
    rewrite Hdx in Hdx'. inversion Hdx'; subst qd'.
    exists qd, zl, pts. repeat (split; [assumption|]). assumption. }
  split.
  - destruct (Haxis 0%nat (body_dim_positive _ _ _ _ _ F))
      as (qd & zl & pts & Hpos & Hzl & _ & _ & _ & Hlt).
    destruct (l_real_bw loc) as [r | | |]; try assumption.
    assert (0 <= inject_Z zl).
    { change 0 with (inject_Z 0). rewrite <- Zle_Qle. assumption. }
    assert (0 <= qd * inject_Z zl) by (apply Qmult_le_0_compat; lra).
    lra.
  - intros i pts p Hpts Hin.
    destruct (body_lengths _ _ _ _ _ F) as [_ [_ [_ [_ Hglen]]]].
    assert (Hi : (i < g_dim g)%nat).
    { rewrite <- Hglen. apply nth_error_Some. congruence. }
    destruct (Haxis i Hi) as (qd & zl & pts' & Hpos & Hzl & Hpts' & Hlen & Hk & Hlt).
    rewrite Hpts in Hpts'. inversion Hpts'; subst pts'.
    apply In_nth_error in Hin. destruct Hin as [k Hkp].
    assert (Hkl : (k < Z.to_nat (2 * zl + 1))%nat).
    { rewrite <- Hlen. apply nth_error_Some. congruence. }
    destruct (Hk k Hkl) as [q [Hq Hq']].
    rewrite Hkp in Hq. inversion Hq; subst p.
    exists q. split; [reflexivity|].
    intros r Hr. rewrite Hr in Hlt.
    assert (Hlo : - inject_Z zl <= inject_Z (Z.of_nat k) - inject_Z zl).
    { assert (0 <= inject_Z (Z.of_nat k)).
      { change 0 with (inject_Z 0). rewrite <- Zle_Qle. lia. }
      lra. }
    assert (Hhi : inject_Z (Z.of_nat k) - inject_Z zl <= inject_Z zl).
    { assert (inject_Z (Z.of_nat k) <= inject_Z (2 * zl)).
      { rewrite <- Zle_Qle. lia. }
      rewrite inject_Z_mult in H. change (inject_Z 2) with 2 in H. lra. }
    apply (Qmult_le_compat_r _ _ qd) in Hlo; [|lra].
    apply (Qmult_le_compat_r _ _ qd) in Hhi; [|lra].
    rewrite Hq'. split; lra.
Qed.

Lemma kernel_grid_strictly_inside_extent_witness :
  exists loc w',
    evaluate_body Demo.collab (GridExplicit Demo.grid4)
      {| self := Demo.fitted (PyNum (Fin (3 # 2))) None; calls := [] |}
    = (Ok loc, w') /\
    l_real_bw loc = Fin (3 # 2) /\
    l_grids loc = [[Fin (-(4 # 3)); Fin (-(2 # 3)); Fin 0; Fin (2 # 3); Fin (4 # 3)]] /\
    forall i pts p,
      nth_error (l_grids loc) i = Some pts -> In p pts ->
      exists q, p = Fin q /\
                forall r, l_real_bw loc = Fin r -> - r < q /\ q < r.
Proof.
  eexists. eexists.
  assert (H : evaluate_body Demo.collab (GridExplicit Demo.grid4)
                {| self := Demo.fitted (PyNum (Fin (3 # 2))) None; calls := [] |}
              = (Ok _, _)) by (vm_compute; reflexivity).
  split; [exact H|]. split; [reflexivity|]. split; [reflexivity|].
  exact (proj2 (kernel_grid_strictly_inside_extent _ _ _ _ _ H)).
Defined.

(** ** The calls of [evaluate], whatever its outcome *)

Lemma evaluate_tail_calls E b w r w' :
  evaluate_tail E b w = (r, w') ->
  exists l n,
    calls w' = calls w ++ l /\
    map kind_of l = firstn n [KBinning; KKernel; KConvolve] /\
    (is_ok r = true -> n = 3%nat).
Proof.
  unfold evaluate_tail, evaluate_rest, _evalate_return_logic.
  unfold py_assert, attr, get_self, emit, lift, ret, raise, bind.
  cbn [self calls].
  repeat match goal with
         | |- context [match ?x with Some _ => _ | None => _ end] =>
             destruct x; cbn [self calls]
         | |- context [match ?x with Ok _ => _ | Raise _ => _ end] =>
             destruct x; cbn [self calls]
         | |- context [if ?x then _ else _] => destruct x; cbn [self calls]
         end;
    intros H; inversion H; subst; clear H; cbn [calls];
    first
      [ exists [], 0%nat; rewrite app_nil_r; repeat split;
        first [reflexivity | discriminate]
      | eexists [_], 1%nat; repeat split;
        first [reflexivity | discriminate]
      | eexists [_; _], 2%nat; rewrite <- !app_assoc; repeat split;
        first [reflexivity | discriminate]
      | eexists [_; _; _], 3%nat; rewrite <- !app_assoc; repeat split;
        first [reflexivity | discriminate] ].
Qed.

(** X3.  Whatever the outcome of [evaluate], its calls to collaborators are
    an initial part of the sequence: bandwidth rule (only when [bw] is
    callable), binning, kernel, convolution, each at most once and in this
    order; a call that completes made the last three.  So the binning has
    always run before the kernel is evaluated, and nothing is called
    twice. *)
Theorem calls_in_order (E : Collab) (req : grid_request) (s : FFTKDE)
    (r : result retval) (w' : world) :
  run (evaluate E req) s = (r, w') ->
  exists k n,
    (k <= 1)%nat /\ (k = 1%nat -> callable (bw s) = true) /\
    map kind_of (calls w') =
      repeat KRule k ++ firstn n [KBinning; KKernel; KConvolve] /\
    (is_ok r = true -> n = 3%nat).
Proof.
  unfold run. rewrite evaluate_split. intros H.
  apply bind_inv in H. destruct H as [[e [Hb ->]]|[[] [w1 [Hb H]]]].
  { apply BaseKDE_evaluate_keeps in Hb. destruct Hb as (_ & _ & _ & _ & _ & Hc).
    exists 0%nat, 0%nat. rewrite Hc. simpl.
    repeat split; try lia; try discriminate. }
  pose proof (BaseKDE_evaluate_keeps _ _ _ _ _ Hb) as (_ & Hbw & _ & _ & _ & Hc).
  simpl in Hbw, Hc.
  apply bind_inv in H. destruct H as [[e [Hr ->]]|[b [w2 [Hr H]]]].
  { pose proof (resolve_bw_keeps _ _ _ Hr) as (_ & _ & _ & _ & _ & _ & l & Hl & Hcase).
    rewrite Hc in Hl. simpl in Hl.
    destruct Hcase as [->|[d [-> Hcall]]].
    - exists 0%nat, 0%nat. rewrite Hl. simpl.
      repeat split; try lia; try discriminate.
    - exists 1%nat, 0%nat. rewrite Hl. simpl.
      repeat split; try lia; try discriminate. congruence. }
  pose proof (resolve_bw_keeps _ _ _ Hr) as (_ & _ & _ & _ & _ & _ & l & Hl & Hcase).
  rewrite Hc in Hl. simpl in Hl.
  apply evaluate_tail_calls in H. destruct H as (l' & n & Hl' & Hkinds & Hok).
  rewrite Hl', Hl, map_app, Hkinds.
  destruct Hcase as [->|[d [-> Hcall]]].
  - exists 0%nat, n. simpl. repeat split; try lia; assumption.
  - exists 1%nat, n. simpl. repeat split; try lia; try assumption. congruence.
Qed.

Lemma calls_in_order_witness :
  exists r w',
    run (evaluate Demo.collab GridNone)
        (Demo.fitted (PyCallable (fun _ => Fin (-1))) None) = (r, w') /\
    r = Raise AssertionError /\
    map kind_of (calls w') = [KRule; KBinning] /\
    exists k n,
      (k <= 1)%nat /\
      map kind_of (calls w') =
        repeat KRule k ++ firstn n [KBinning; KKernel; KConvolve].
Proof.
  eexists. eexists.
  assert (H : run (evaluate Demo.collab GridNone)
                  (Demo.fitted (PyCallable (fun _ => Fin (-1))) None) = (_, _))
    by (vm_compute; reflexivity).
  destruct (calls_in_order _ _ _ _ _ H) as (k & n & Hk & _ & Hcalls & _).
  split; [exact H|]. split; [reflexivity|]. split; [reflexivity|].
  exists k, n. split; [exact Hk|exact Hcalls].
Defined.

(** ** The exceptions of [evaluate] *)









(** ** Grids and instances on which [evaluate] cannot complete *)




Lemma evaluate_tail_unfitted E b w :
  data (self w) = None ->
  evaluate_tail E b w = (Raise (AttributeError "data"), w).
Proof.
  intros Hd. unfold evaluate_tail, evaluate_rest.
  apply bind_raise. apply bind_raise.
  unfold attr, bind, get_self, raise. rewrite Hd. reflexivity.
Qed.

(** X6.  On an instance that was never fitted, [evaluate] always raises and
    calls no collaborator at all; the stored [bw] is left as it was.  The
    exception is the one of the base class, the one of the bandwidth test,
    or the AttributeError for the missing data. *)
Theorem evaluate_before_fit (E : Collab) (req : grid_request) (s : FFTKDE)
    (r : result retval) (w' : world) :
  data s = None ->
  run (evaluate E req) s = (r, w') ->
  calls w' = [] /\ bw (self w') = bw s /\
  exists e,
    r = Raise e /\
    (fst (run (BaseKDE_evaluate E req) s) = Raise e \/
     e = bw_error \/ e = TypeError type_msg \/ e = AttributeError "data").
Proof.
  intros Hd. unfold run. rewrite evaluate_split. intros H.
  apply bind_inv in H. destruct H as [[e [Hb ->]]|[[] [w1 [Hb H]]]].
  { pose proof (BaseKDE_evaluate_keeps _ _ _ _ _ Hb) as (_ & Hbw & _ & _ & _ & Hc).
    split; [exact Hc|]. split; [exact Hbw|].
    exists e. split; [reflexivity|]. left. rewrite Hb. reflexivity. }
  pose proof (BaseKDE_evaluate_keeps _ _ _ _ _ Hb) as (_ & Hbw & _ & Hd1 & _ & Hc).
  simpl in Hbw, Hd1, Hc. rewrite Hd in Hd1.
  apply bind_inv in H. destruct H as [[e [Hr ->]]|[b [w2 [Hr H]]]].
  { apply resolve_bw_inv in Hr. rewrite Hbw, Hd1 in Hr.
    destruct (bw s) as [x | re im | str | | rule] eqn:Hbs.
    - destruct (flt (Fin 0) x); destruct Hr as [Hr ->]; inversion Hr; subst.
      repeat split; try congruence. eexists; split; [reflexivity|auto].
    - destruct Hr as [Hr ->]; inversion Hr; subst.
      repeat split; try congruence. eexists; split; [reflexivity|auto].
    - destruct Hr as [Hr ->]; inversion Hr; subst.
      repeat split; try congruence. eexists; split; [reflexivity|auto].
    - destruct Hr as [Hr ->]; inversion Hr; subst.
      repeat split; try congruence. eexists; split; [reflexivity|auto].
    - destruct Hr as [[d [Hd' _]]|[_ [Hr ->]]]; [discriminate|].
      inversion Hr; subst.
      repeat split; try congruence. eexists; split; [reflexivity|auto]. }
  pose proof (resolve_bw_keeps _ _ _ Hr) as (_ & _ & Hd2 & _ & _ & _ & l & Hl & Hcase).
  assert (Hl0 : l = []).
  { destruct Hcase as [->|[d [-> Hcall]]]; [reflexivity|].
    apply resolve_bw_inv in Hr. rewrite Hd1 in Hr.
    destruct (bw (self w1)); try discriminate.
    destruct Hr as [[d' [Hd' _]]|[_ [Hr _]]]; discriminate. }
  subst l. rewrite app_nil_r in Hl.
  assert (Hbw2 : bw (self w2) = bw s).
  { apply resolve_bw_inv in Hr. rewrite Hbw in Hr.
    destruct (bw s) as [x | re im | str | | rule] eqn:Hbs;
      try (destruct Hr as [Hr _]; discriminate).
    - destruct (flt (Fin 0) x); destruct Hr as [Hr ->]; [reflexivity|discriminate].
    - rewrite Hd1 in Hr.
      destruct Hr as [[d' [Hd' _]]|[_ [Hr _]]]; discriminate. }
  rewrite evaluate_tail_unfitted in H by congruence.
  inversion H; subst.
  split; [congruence|]. split; [assumption|].
  eexists. split; [reflexivity|]. auto.
Qed.

Lemma evaluate_before_fit_witness :
  exists r w',
    run (evaluate Demo.collab (GridExplicit Demo.grid4))
        (unfitted (PyNum (Fin 1))) = (r, w') /\
    r = Raise (AttributeError "data") /\ calls w' = [] /\
    bw (self w') = PyNum (Fin 1).
Proof.
  eexists. eexists.
  assert (H : run (evaluate Demo.collab (GridExplicit Demo.grid4))
                  (unfitted (PyNum (Fin 1))) = (_, _))
    by (vm_compute; reflexivity).
  destruct (evaluate_before_fit Demo.collab (GridExplicit Demo.grid4)
              (unfitted (PyNum (Fin 1))) _ _
              (eq_refl None) H) as (Hc & Hbw & _).
  split; [exact H|]. split; [reflexivity|]. split; [exact Hc|exact Hbw].
Defined.

(** ** Evaluating twice *)

Lemma resolve_bw_self w b w' :
  resolve_bw w = (Ok b, w') -> self w' = set_bw (self w) b.
Proof.
  intros H. apply resolve_bw_inv in H.
  destruct (bw (self w)) as [x | re im | str | | rule];
    try (destruct H as [H _]; discriminate).
  - destruct (flt (Fin 0) x); destruct H as [H ->]; inversion H; subst.
    reflexivity.
  - destruct H as [[d [_ [H ->]]]|[_ [H _]]]; inversion H; subst. reflexivity.
Qed.

Lemma evaluate_tail_only_calls E b : respects only_calls (evaluate_tail E b).
Proof.
  unfold evaluate_tail.
  apply (respects_bind only_calls only_calls_trans);
    [apply evaluate_rest_only_calls|intros loc].
  apply (respects_bind only_calls only_calls_trans);
    [apply (respects_attr only_calls only_calls_refl)|intros g].
  apply return_logic_only_calls.
Qed.

(** The part of [evaluate] after the bandwidth does not read the call
    log. *)
Lemma evaluate_tail_log_irrelevant E b s c1 c2 :
  fst (evaluate_tail E b {| self := s; calls := c1 |}) =
  fst (evaluate_tail E b {| self := s; calls := c2 |}).
Proof.
  destruct s as [k bwv nv [d|] ws gv u].
  - apply evaluate_tail_weights. reflexivity.
  - rewrite !evaluate_tail_unfitted by reflexivity. reflexivity.
Qed.

Lemma evaluate_explicit_settled E g0 s x :
  valid_grid (grid_tol E) g0 = true ->
  bw s = PyNum x -> flt (Fin 0) x = true ->
  grid_points s = Some g0 -> user_supplied_grid s = true ->
  evaluate E (GridExplicit g0) {| self := s; calls := [] |} =
  evaluate_tail E (PyNum x) {| self := s; calls := [] |}.
Proof.
  intros Hv Hbw Hpos Hg Hu. rewrite evaluate_split.
  assert (Hb : BaseKDE_evaluate E (GridExplicit g0) {| self := s; calls := [] |} =
               (Ok tt, {| self := s; calls := [] |})).
  { unfold BaseKDE_evaluate. rewrite Hv.
    unfold bind, get_self, put_self. cbn [self calls].
    destruct s as [k bwv nv dv ws gv u]. unfold set_grid.
    cbn [kernel bw norm data weights grid_points user_supplied_grid] in *.
    subst gv u. reflexivity. }
  rewrite (bind_continue _ _ _ _ _ Hb).
  assert (Hr : resolve_bw {| self := s; calls := [] |} =
               (Ok (PyNum x), {| self := s; calls := [] |})).
  { unfold resolve_bw, bind, get_self, put_self, lift, ret. cbn [self calls].
    rewrite Hbw. unfold is_positive_Number, is_Number, gt_zero. rewrite Hpos.
    cbn [self calls].
    destruct s as [k bwv nv dv ws gv u]. unfold set_bw.
    cbn [kernel bw norm data weights grid_points user_supplied_grid] in *.
    subst bwv. reflexivity. }
  rewrite (bind_continue _ _ _ _ _ Hr). reflexivity.
Qed.

(** X7.  When [evaluate] has completed on an explicit grid and the bandwidth
    it left on the instance is greater than zero (a literal bandwidth always
    is; a rule's output is stored untested), evaluating the same grid again
    on the instance as the first call left it completes with the same
    result and leaves the instance as it is. *)
Theorem evaluate_again_same_result (E : Collab) (g0 : ndgrid) (s : FFTKDE)
    (r : retval) (w' : world) (x : float64) :
  run (evaluate E (GridExplicit g0)) s = (Ok r, w') ->
  bw (self w') = PyNum x -> flt (Fin 0) x = true ->
  exists w'',
    run (evaluate E (GridExplicit g0)) (self w') = (Ok r, w'') /\
    self w'' = self w'.
Proof.
  unfold run. intros H Hbw Hpos.
  rewrite evaluate_split in H.
  apply bind_ok in H. destruct H as ([] & w1 & Hb & H).
  apply bind_ok in H. destruct H as (b & w2 & Hr & Ht).
  apply BaseKDE_evaluate_inv in Hb.
  destruct Hb as [(Hv & _ & Hw1)|(_ & Hbad & _)]; [|discriminate].
  pose proof (resolve_bw_self _ _ _ Hr) as Hs2.
  pose proof (resolve_bw_ok _ _ _ Hr) as [Hb2 _].
  pose proof (resolve_bw_keeps _ _ _ Hr) as (_ & _ & _ & _ & Hg2 & Hu2 & _).
  destruct (evaluate_tail_only_calls E b _ _ _ Ht) as [Hs' _].
  assert (Hbx : b = PyNum x) by congruence. clear Hb2. subst b.
  subst w1. cbn [self with_self] in Hs2, Hg2, Hu2.
  rewrite (evaluate_explicit_settled E g0 (self w') x Hv Hbw Hpos).
  2:{ rewrite Hs', Hg2. reflexivity. }
  2:{ rewrite Hs', Hu2. reflexivity. }
  pose proof (evaluate_tail_log_irrelevant E (PyNum x) (self w2) [] (calls w2)) as Hlog.
  replace {| self := self w2; calls := calls w2 |} with w2 in Hlog
    by (destruct w2; reflexivity).
  rewrite Ht in Hlog. cbn [fst] in Hlog. rewrite Hs'.
  destruct (evaluate_tail E (PyNum x) {| self := self w2; calls := [] |})
    as [r'' w''] eqn:Ht2.
  cbn [fst] in Hlog. subst r''.
  exists w''. split; [reflexivity|].
  destruct (evaluate_tail_only_calls E (PyNum x) _ _ _ Ht2) as [Hs'' _].
  exact Hs''.
Qed.

Lemma evaluate_again_same_result_witness :
  exists r w' w'',
    run (evaluate Demo.collab (GridExplicit Demo.grid4))
        (Demo.fitted (PyCallable (fun _ => Fin 1)) None) = (Ok r, w') /\
    run (evaluate Demo.collab (GridExplicit Demo.grid4)) (self w') = (Ok r, w'') /\
    self w'' = self w'.
Proof.
  eexists. eexists.
  assert (H : run (evaluate Demo.collab (GridExplicit Demo.grid4))
                  (Demo.fitted (PyCallable (fun _ => Fin 1)) None) = (Ok _, _))
    by (vm_compute; reflexivity).
  destruct (evaluate_again_same_result Demo.collab Demo.grid4 _ _ _ (Fin 1) H
              eq_refl eq_refl) as (w'' & H2 & Hs).
  exists w''. split; [exact H|]. split; [exact H2|exact Hs].
Defined.

(** ** From the constructor to the density *)

Lemma app_same_length_tail {A} (x y l1 l2 : list A) :
  List.length l1 = List.length l2 -> x ++ l1 = y ++ l2 -> x = y.
Proof.
  intros Hl H.
  assert (Hxy : List.length x = List.length y).
  { apply (f_equal (@List.length A)) in H. rewrite !length_app in H. lia. }
  apply (f_equal (firstn (List.length x))) in H.
  rewrite firstn_app, firstn_all, Nat.sub_diag in H. cbn [firstn] in H.
  rewrite Hxy, firstn_app, firstn_all, Nat.sub_diag in H. cbn [firstn] in H.
  rewrite !app_nil_r in H. exact H.
Qed.

(** X8.  Constructing an instance, fitting it and evaluating it, all three
    succeeding: the norm given to the constructor is a real number greater
    than zero and is the norm the kernel is called with; the data and the
    weights given to [fit] are those the binning is called with, on the
    grid that [evaluate] left on the instance; the kernel is the one the
    base class chose; a bandwidth rule is called on the data given to
    [fit], and a bandwidth that is not a rule is still the one that the
    base class stored. *)
Theorem constructed_fitted_evaluated (E : Collab) (kernel_arg : string)
    (bw_arg norm_arg : pyval) (d : dataset) (wts : option (list Q))
    (req : grid_request) (s0 s1 : FFTKDE) (r : retval) (w' : world) :
  __init__ E kernel_arg bw_arg norm_arg = Ok s0 ->
  fit s0 d wts = Ok s1 ->
  run (evaluate E req) s1 = (Ok r, w') ->
  exists k b0 nx g pts rules in1 in2,
    base_init E kernel_arg bw_arg = Ok (k, b0) /\
    norm_arg = PyNum nx /\ flt (Fin 0) nx = true /\
    kernel (self w') = k /\
    grid_points (self w') = Some g /\
    calls w' = rules ++ [CallBinning d g wts;
                         CallKernel pts (bw (self w')) norm_arg;
                         CallConvolve in1 in2] /\
    (callable b0 = true -> rules = [CallBwRule d]) /\
    (callable b0 = false -> rules = [] /\ bw (self w') = b0).
Proof.
  intros Hi Hf He.
  unfold __init__ in Hi.
  destruct (base_init E kernel_arg bw_arg) as [[k b0]|e]; [|discriminate].
  cbn [norm] in Hi. unfold is_positive_Number, gt_zero in Hi.
  destruct norm_arg as [nx | re im | str | | rule]; cbn [is_Number] in Hi;
    try discriminate.
  destruct (flt (Fin 0) nx) eqn:Hnx; [|discriminate].
  inversion Hi; subst s0; clear Hi.
  assert (Hs1 : s1 = {| kernel := k; bw := b0; norm := PyNum nx; data := Some d;
                        weights := wts; grid_points := None;
                        user_supplied_grid := false |}).
  { unfold fit, BaseKDE_fit, set_data in Hf.
    destruct wts as [ws|];
      [destruct (Nat.eqb (List.length ws) (List.length d)); [|discriminate]|];
      inversion Hf; reflexivity. }
  clear Hf.
  pose proof (evaluate_ok _ _ _ _ _ He)
    as (loc & g & d' & rules & _ & Hg & Hd' & _ & Hk & _ & Hd & _ & _ & Hc & _ & _).
  assert (d' = d) by (rewrite Hs1 in Hd; cbn [data] in Hd; congruence). subst d'.
  exists k, b0, nx, g, (l_kernel_grid loc), rules, (l_data_nd loc),
         (l_kernel_weights loc).
  split; [reflexivity|]. split; [reflexivity|]. split; [exact Hnx|].
  split; [rewrite Hk, Hs1; reflexivity|]. split; [assumption|].
  split; [rewrite Hc, Hs1; reflexivity|].
  unfold run in He. rewrite evaluate_split in He.
  apply bind_ok in He. destruct He as ([] & w1 & Hb & He).
  apply bind_ok in He. destruct He as (b & w2 & Hr & Ht).
  pose proof (BaseKDE_evaluate_keeps _ _ _ _ _ Hb) as (_ & Hbw1 & _ & Hd1 & _ & Hc1).
  cbn [self calls] in Hbw1, Hd1, Hc1.
  destruct (evaluate_tail_only_calls E b _ _ _ Ht) as [Hs' _].
  destruct (evaluate_tail_calls E b w2 (Ok r) w' Ht) as (l & n & Hl & Hkinds & Hn).
  rewrite (Hn eq_refl) in Hkinds. cbn [firstn] in Hkinds.
  assert (Hrules : rules = calls w2).
  { rewrite Hc in Hl.
    apply (app_same_length_tail _ _ _ _) in Hl; [exact Hl|].
    apply (f_equal (@List.length call_kind)) in Hkinds.
    rewrite length_map in Hkinds. cbn [List.length] in *. lia. }
  apply resolve_bw_inv in Hr. rewrite Hbw1, Hd1 in Hr.
  rewrite Hs1 in Hr. cbn [bw data] in Hr.
  destruct b0 as [x | re im | str | | rule];
    try (destruct Hr as [Hr _]; discriminate).
  - destruct (flt (Fin 0) x); destruct Hr as [Hr Hw2]; [|discriminate].
    split; [discriminate|]. intros _. subst w2. cbn [self calls with_self] in *.
    split; [congruence|]. rewrite Hs'. reflexivity.
  - destruct Hr as [(d0 & Hd0 & _ & Hw2)|(Hbad & _)]; [|discriminate].
    inversion Hd0; subst d0. split; [|discriminate].
    intros _. subst w2. cbn [calls] in Hrules. rewrite Hc1 in Hrules.
    exact Hrules.
Qed.

Lemma constructed_fitted_evaluated_witness :
  exists r w',
    __init__ Demo.collab "box" (PyNum (Fin 1)) (PyNum (Fin 2))
    = Ok (unfitted (PyNum (Fin 1))) /\
    fit (unfitted (PyNum (Fin 1))) Demo.sample None
    = Ok (Demo.fitted (PyNum (Fin 1)) None) /\
    run (evaluate Demo.collab (GridExplicit Demo.grid4))
        (Demo.fitted (PyNum (Fin 1)) None) = (Ok r, w') /\
    exists pts in1 in2,
      calls w' = [CallBinning Demo.sample Demo.grid4 None;
                  CallKernel pts (PyNum (Fin 1)) (PyNum (Fin 2));
                  CallConvolve in1 in2].
Proof.
  eexists. eexists.
  assert (Hi : __init__ Demo.collab "box" (PyNum (Fin 1)) (PyNum (Fin 2))
               = Ok (unfitted (PyNum (Fin 1)))) by reflexivity.
  assert (Hf : fit (unfitted (PyNum (Fin 1))) Demo.sample None
               = Ok (Demo.fitted (PyNum (Fin 1)) None)) by reflexivity.
  assert (He : run (evaluate Demo.collab (GridExplicit Demo.grid4))
                   (Demo.fitted (PyNum (Fin 1)) None) = (Ok _, _))
    by (vm_compute; reflexivity).
  destruct (constructed_fitted_evaluated _ _ _ _ _ _ _ _ _ _ _ Hi Hf He)
    as (k & b0 & nx & g & pts & rules & in1 & in2 &
        Hbase & _ & _ & _ & Hg & Hc & _ & Hlit).
  split; [exact Hi|]. split; [exact Hf|]. split; [exact He|].
  inversion Hbase; subst k b0.
  destruct (Hlit eq_refl) as [-> Hbw].
  inversion Hg; subst g.
  exists pts, in1, in2. rewrite Hc, Hbw. reflexivity.
Defined.

(** ** A kernel narrower than the grid step *)














(** ** The footprint as a function of the extent *)

(** X10.  On an axis of positive spacing the footprint of line 160 is an
    integer that grows with the real extent of the kernel and never exceeds
    the number of intervals of the axis; an infinite extent gives exactly
    the number of intervals. *)
Theorem footprint_monotone (r1 r2 qd : Q) (n : Z) :
  0 < qd -> r1 <= r2 ->
  exists z1 z2,
    footprint (Fin r1) (Fin qd) n = of_Z z1 /\
    footprint (Fin r2) (Fin qd) n = of_Z z2 /\
    (z1 <= z2)%Z /\ (z2 <= n)%Z /\
    footprint PInf (Fin qd) n = of_Z n.
Proof.
  intros Hqd Hr.
  exists (Z.min (Qfloor (r1 / qd)) n), (Z.min (Qfloor (r2 / qd)) n).
  split; [apply footprint_finite; exact Hqd|].
  split; [apply footprint_finite; exact Hqd|].
  assert (Hfl : (Qfloor (r1 / qd) <= Qfloor (r2 / qd))%Z).
  { apply Qfloor_resp_le. unfold Qdiv. apply Qmult_le_compat_r; [exact Hr|].
    apply Qlt_le_weak. apply Qinv_lt_0_compat. exact Hqd. }
  split; [lia|]. split; [lia|].
  apply footprint_infinite. exact Hqd.
Qed.

Lemma footprint_monotone_witness :
  exists z1 z2,
    footprint (Fin 1) (Fin (2 # 3)) 3 = of_Z z1 /\
    footprint (Fin 5) (Fin (2 # 3)) 3 = of_Z z2 /\
    (z1 <= z2)%Z /\ (z2 <= 3)%Z /\
    footprint PInf (Fin (2 # 3)) 3 = of_Z 3.
Proof.
  apply (footprint_monotone 1 5 (2 # 3) 3); [reflexivity|discriminate].
Defined.
